(** * Subscription billing backend: webhook sync engine and session lifecycle

    A shallow embedding of the server side of the repository:

    - [server/routes/webhooks.ts]  (the Stripe webhook endpoint and its six
      event handlers),
    - [server/routes/auth.ts]      (login, refresh, change-password),
    - [server/middleware/auth.ts]  (the [authenticate] middleware and the
      token helpers),
    - [server/routes/profile.ts]   (account deletion),
    - [server/db/schema.sql]       (the logical shape of the tables).

    The PostgreSQL store is a record of row lists; every SQL statement of the
    handlers is one function on that record, and a lookup through [queryOne]
    returns the first matching row.  A request is processed at one instant
    [now] (milliseconds since the epoch): [NOW()] and [Date.now()] read the
    same clock.  Statements are not grouped in transactions in the source, so
    the effects that precede an exception persist: the handler monad below
    threads the store through failures.

    Of the constraints of the schema, the store enforces the UNIQUE ones on
    the columns the handlers write references into ([token_hash],
    [stripe_subscription_id], [stripe_invoice_id] through ON CONFLICT) and
    NOT NULL where a handler can pass [null]; a violation is the exception
    the driver raises.  Requests are taken as the handlers receive them,
    past the rate limiters and the express-validator chains.

    Third-party libraries (Stripe signature verification, bcrypt, SHA-256,
    jsonwebtoken) are the fields of the class [Externals]; nothing is assumed
    about them unless a theorem says so. *)

From Stdlib Require Import ZArith List String Ascii Bool Lia DecimalString.
Import ListNotations.
Local Open Scope string_scope.
Local Open Scope Z_scope.

(** ** Basic types *)

(** Milliseconds since the epoch. *)
Definition Time := Z.

(** Values of the [UUID] columns.  [uuid_generate_v4()] is modelled by a
    counter kept in the store. *)
Definition UUID := nat.

Inductive Role := RoleUser | RoleAdmin.

(** [subscriptions.status] (the CHECK constraint of the schema, which is also
    Stripe's [Subscription.Status]). *)
Inductive SubscriptionStatus :=
| incomplete | incomplete_expired | trialing | active
| past_due | canceled | unpaid | paused.

(** [invoices.status] (Stripe's [Invoice.Status]). *)
Inductive InvoiceStatus := draft | open | paid | uncollectible | void.

(** ** JavaScript and SQL idioms *)

(** A string operand of [!x], [x || y] or [if (x)]: [null], [undefined] and
    the empty string are falsy. *)
Definition truthy_string (x : option string) : option string :=
  match x with
  | Some s => if String.eqb s "" then None else Some s
  | None => None
  end.

(** [x || 0] on an optional number. *)
Definition or_zero (x : option Z) : Z :=
  match x with Some n => n | None => 0 end.

(** [to_timestamp(seconds)]. *)
Definition to_timestamp (seconds : Z) : Time := seconds * 1000.

(** [to_timestamp(x || Date.now() / 1000)]: zero is falsy as well. *)
Definition to_timestamp_or_now (x : option Z) (now : Time) : Time :=
  match x with
  | Some s => if s =? 0 then now else to_timestamp s
  | None => now
  end.

(** [CASE WHEN $n > 0 THEN to_timestamp($n) ELSE NULL END] on [x || 0]. *)
Definition to_timestamp_if_positive (x : option Z) : option Time :=
  if 0 <? or_zero x then Some (to_timestamp (or_zero x)) else None.

Definition upper_ascii (c : ascii) : ascii :=
  let n := nat_of_ascii c in
  if (Nat.leb 97 n && Nat.leb n 122)%bool then ascii_of_nat (n - 32) else c.

Definition lower_ascii (c : ascii) : ascii :=
  let n := nat_of_ascii c in
  if (Nat.leb 65 n && Nat.leb n 90)%bool then ascii_of_nat (n + 32) else c.

Fixpoint string_map (f : ascii -> ascii) (s : string) : string :=
  match s with
  | EmptyString => EmptyString
  | String c s' => String (f c) (string_map f s')
  end.

(** [s.toUpperCase()] and [s.toLowerCase()] on ASCII text. *)
Definition toUpperCase : string -> string := string_map upper_ascii.
Definition toLowerCase : string -> string := string_map lower_ascii.

Definition option_string_eqb (a : option string) (b : string) : bool :=
  match a with Some x => String.eqb x b | None => false end.

(** [const rows = ...; return rows[0] || null] of [db/pool.ts]. *)
Definition queryOne {A : Type} (p : A -> bool) (rows : list A) : option A :=
  find p rows.

(** [UPDATE t SET ... WHERE p]. *)
Definition update_where {A : Type} (p : A -> bool) (f : A -> A)
  (rows : list A) : list A :=
  map (fun r => if p r then f r else r) rows.

(** ** Provider events (the part of [Stripe.Event] the handlers read) *)

Inductive SessionMode := mode_payment | mode_setup | mode_subscription.

Record CheckoutSession := {
  cs_mode : SessionMode;
  cs_metadata_userId : option UUID;
  cs_metadata_planId : option UUID;
  cs_customer : option string;
  cs_subscription : option string;
  cs_current_period_start : option Z;
  cs_current_period_end : option Z;
  cs_trial_start : option Z;
  cs_trial_end : option Z
}.

Record StripeSubscription := {
  ss_id : string;
  ss_status : SubscriptionStatus;
  ss_current_period_start : Z;
  ss_current_period_end : Z;
  ss_cancel_at_period_end : bool;
  ss_canceled_at : option Z;
  ss_trial_start : option Z;
  ss_trial_end : option Z
}.

Record StripeInvoice := {
  si_id : string;
  si_customer : option string;
  si_subscription : option string;
  si_charge : option string;
  si_amount_due : Z;
  si_currency : string;
  si_status : InvoiceStatus;
  si_invoice_pdf : option string;
  si_hosted_invoice_url : option string;
  si_period_start : Z;
  si_period_end : Z
}.

(** [event.type] together with [event.data.object]. *)
Inductive EventData :=
| checkout_session_completed (session : CheckoutSession)
| customer_subscription_created (subscription : StripeSubscription)
| customer_subscription_updated (subscription : StripeSubscription)
| customer_subscription_deleted (subscription : StripeSubscription)
| invoice_payment_succeeded (invoice : StripeInvoice)
| invoice_payment_failed (invoice : StripeInvoice)
| invoice_finalized (invoice : StripeInvoice)
| unhandled_event (type : string).

Record StripeEvent := {
  ev_id : string;
  ev_data : EventData
}.

Definition event_type (e : StripeEvent) : string :=
  match ev_data e with
  | checkout_session_completed _ => "checkout.session.completed"
  | customer_subscription_created _ => "customer.subscription.created"
  | customer_subscription_updated _ => "customer.subscription.updated"
  | customer_subscription_deleted _ => "customer.subscription.deleted"
  | invoice_payment_succeeded _ => "invoice.payment_succeeded"
  | invoice_payment_failed _ => "invoice.payment_failed"
  | invoice_finalized _ => "invoice.finalized"
  | unhandled_event t => t
  end.

(** ** Tables *)

(** [users].  The handlers read and write [stripe_customer_id] on this table
    (webhooks.ts, subscriptions.ts), so the row carries it. *)
Record UserRow := {
  u_id : UUID;
  u_email : string;
  u_password_hash : string;
  u_first_name : string;
  u_last_name : string;
  u_email_verified : bool;
  u_role : Role;
  u_last_login_at : option Time;
  u_failed_login_attempts : option Z;
  u_locked_until : option Time;
  u_stripe_customer_id : option string;
  u_created_at : Time;
  u_updated_at : Time;
  u_deleted_at : option Time
}.

Record SubscriptionRow := {
  s_id : UUID;
  s_user_id : UUID;
  s_plan_id : UUID;
  s_stripe_customer_id : string;
  s_stripe_subscription_id : option string;
  s_status : SubscriptionStatus;
  s_current_period_start : option Time;
  s_current_period_end : option Time;
  s_cancel_at_period_end : bool;
  s_canceled_at : option Time;
  s_trial_start : option Time;
  s_trial_end : option Time;
  s_created_at : Time;
  s_updated_at : Time
}.

Record InvoiceRow := {
  i_id : UUID;
  i_user_id : UUID;
  i_subscription_id : option UUID;
  i_stripe_invoice_id : string;
  i_stripe_charge_id : option string;
  i_amount : Z;
  i_currency : string;
  i_status : InvoiceStatus;
  i_invoice_pdf : option string;
  i_hosted_invoice_url : option string;
  i_period_start : option Time;
  i_period_end : option Time;
  i_paid_at : option Time;
  i_created_at : Time
}.

Record RefreshTokenRow := {
  rt_id : UUID;
  rt_user_id : UUID;
  rt_token_hash : string;
  rt_expires_at : Time;
  rt_created_at : Time;
  rt_revoked_at : option Time;
  rt_replaced_by_token : option UUID;
  rt_ip_address : option string;
  rt_user_agent : option string
}.

Record WebhookEventRow := {
  we_id : UUID;
  we_stripe_event_id : string;
  we_event_type : string;
  we_payload : StripeEvent;
  we_processed_at : option Time;
  we_error_message : option string;
  we_retry_count : Z;
  we_created_at : Time
}.

Record DB := {
  db_users : list UserRow;
  db_subscriptions : list SubscriptionRow;
  db_invoices : list InvoiceRow;
  db_refresh_tokens : list RefreshTokenRow;
  db_webhook_events : list WebhookEventRow;
  db_next_uuid : UUID
}.

Definition with_users (rows : list UserRow) (db : DB) : DB :=
  {| db_users := rows;
     db_subscriptions := db_subscriptions db;
     db_invoices := db_invoices db;
     db_refresh_tokens := db_refresh_tokens db;
     db_webhook_events := db_webhook_events db;
     db_next_uuid := db_next_uuid db |}.

Definition with_subscriptions (rows : list SubscriptionRow) (db : DB) : DB :=
  {| db_users := db_users db;
     db_subscriptions := rows;
     db_invoices := db_invoices db;
     db_refresh_tokens := db_refresh_tokens db;
     db_webhook_events := db_webhook_events db;
     db_next_uuid := db_next_uuid db |}.

Definition with_invoices (rows : list InvoiceRow) (db : DB) : DB :=
  {| db_users := db_users db;
     db_subscriptions := db_subscriptions db;
     db_invoices := rows;
     db_refresh_tokens := db_refresh_tokens db;
     db_webhook_events := db_webhook_events db;
     db_next_uuid := db_next_uuid db |}.

Definition with_refresh_tokens (rows : list RefreshTokenRow) (db : DB) : DB :=
  {| db_users := db_users db;
     db_subscriptions := db_subscriptions db;
     db_invoices := db_invoices db;
     db_refresh_tokens := rows;
     db_webhook_events := db_webhook_events db;
     db_next_uuid := db_next_uuid db |}.

Definition with_webhook_events (rows : list WebhookEventRow) (db : DB) : DB :=
  {| db_users := db_users db;
     db_subscriptions := db_subscriptions db;
     db_invoices := db_invoices db;
     db_refresh_tokens := db_refresh_tokens db;
     db_webhook_events := rows;
     db_next_uuid := db_next_uuid db |}.

(** The row id an INSERT draws from [uuid_generate_v4()]. *)
Definition bump_uuid (db : DB) : DB :=
  {| db_users := db_users db;
     db_subscriptions := db_subscriptions db;
     db_invoices := db_invoices db;
     db_refresh_tokens := db_refresh_tokens db;
     db_webhook_events := db_webhook_events db;
     db_next_uuid := S (db_next_uuid db) |}.

(** The business tables the sync engine mirrors. *)
Definition business_rows (db : DB)
  : list SubscriptionRow * list InvoiceRow * list UserRow :=
  (db_subscriptions db, db_invoices db, db_users db).

(** ** The handler monad: a store and exceptions that do not roll it back *)

Inductive Result (A : Type) :=
| Ok (a : A)
| Throw (message : string).
Arguments Ok {A} a.
Arguments Throw {A} message.

Definition M (A : Type) : Type := DB -> Result A * DB.

Definition ret {A : Type} (a : A) : M A := fun db => (Ok a, db).

Definition throw {A : Type} (message : string) : M A :=
  fun db => (Throw message, db).

Definition bind {A B : Type} (m : M A) (f : A -> M B) : M B :=
  fun db =>
    match m db with
    | (Ok a, db') => f a db'
    | (Throw e, db') => (Throw e, db')
    end.

Definition select {A : Type} (q : DB -> A) : M A := fun db => (Ok (q db), db).

Definition execute (stmt : DB -> DB) : M unit := fun db => (Ok tt, stmt db).

Notation "x <- m ;; k" := (bind m (fun x => k))
  (at level 61, m at next level, right associativity).
Notation "m ;;; k" := (bind m (fun _ => k))
  (at level 61, right associativity).

(** ** Libraries and process environment *)

(** The claims [jwt.sign] puts in a token: [{userId, email, role}] for an
    access token, [{userId}] for a refresh token. *)
Record JwtPayload := {
  jwt_userId : UUID;
  jwt_email : option string;
  jwt_role : option Role
}.

(** [jwt.verify]: the payload, a [TokenExpiredError], or any other
    [JsonWebTokenError]. *)
Inductive JwtOutcome :=
| JwtOk (payload : JwtPayload)
| JwtTokenExpired
| JwtError.

(** [config] as read from the process environment; [expiresIn] values in
    seconds. *)
Record Config := {
  cfg_jwt_secret : string;
  cfg_jwt_expiresIn : Z;
  cfg_jwt_refreshSecret : string;
  cfg_jwt_refreshExpiresIn : Z;
  cfg_stripe_webhookSecret : string;
  cfg_bcryptRounds : Z
}.

Class Externals := {
  config : Config;
  (** [stripe.webhooks.constructEvent(payload, signature, secret)];
      [None] when it throws. *)
  stripe_constructEvent : string -> string -> string -> option StripeEvent;
  (** [bcrypt.compare(password, hash)]. *)
  bcrypt_compare : string -> string -> bool;
  (** [bcrypt.hash(password, rounds)], with the salt it draws. *)
  bcrypt_hash : string -> Z -> string -> string;
  (** [crypto.createHash('sha256').update(s).digest('hex')]. *)
  sha256_hex : string -> string;
  (** [jwt.sign(payload, secret, {expiresIn})] at a given instant. *)
  jwt_sign : JwtPayload -> string -> Z -> Time -> string;
  (** [jwt.verify(token, secret)] at a given instant. *)
  jwt_verify : string -> string -> Time -> JwtOutcome
}.

(** ** services/stripe.ts *)

Definition constructWebhookEvent `{Externals} (payload signature : string)
  : option StripeEvent :=
  stripe_constructEvent payload signature (cfg_stripe_webhookSecret config).

(** ** routes/webhooks.ts: the event handlers *)

(** The number of rows that carry a provider subscription reference; the
    column is UNIQUE, so a statement that leaves two is rejected. *)
Definition count_subscription_ref (ref : string) (rows : list SubscriptionRow)
  : nat :=
  List.length
    (filter (fun s => option_string_eqb (s_stripe_subscription_id s) ref) rows).

Definition violates_subscription_ref_unique (ref : option string)
  (rows : list SubscriptionRow) : bool :=
  match ref with
  | Some r => Nat.ltb 1 (count_subscription_ref r rows)
  | None => false
  end.

Definition duplicate_key : string :=
  "duplicate key value violates unique constraint".

Definition not_null_violation : string :=
  "null value in column violates not-null constraint".

(** [UPDATE subscriptions SET stripe_subscription_id = $1, status = $2, ...
    WHERE user_id = $7] of [handleCheckoutSessionCompleted]. *)
Definition checkout_update_row (session : CheckoutSession) (now : Time)
  (s : SubscriptionRow) : SubscriptionRow :=
  {| s_id := s_id s;
     s_user_id := s_user_id s;
     s_plan_id := s_plan_id s;
     s_stripe_customer_id := s_stripe_customer_id s;
     s_stripe_subscription_id := cs_subscription session;
     s_status := active;
     s_current_period_start :=
       Some (to_timestamp_or_now (cs_current_period_start session) now);
     s_current_period_end :=
       Some (to_timestamp_or_now (cs_current_period_end session) now);
     s_cancel_at_period_end := s_cancel_at_period_end s;
     s_canceled_at := s_canceled_at s;
     s_trial_start := to_timestamp_if_positive (cs_trial_start session);
     s_trial_end := to_timestamp_if_positive (cs_trial_end session);
     s_created_at := s_created_at s;
     s_updated_at := now |}.

(** [INSERT INTO subscriptions (...)] of [handleCheckoutSessionCompleted]. *)
Definition checkout_new_row (id userId planId : UUID) (customer : string)
  (session : CheckoutSession) (now : Time) : SubscriptionRow :=
  {| s_id := id;
     s_user_id := userId;
     s_plan_id := planId;
     s_stripe_customer_id := customer;
     s_stripe_subscription_id := cs_subscription session;
     s_status := active;
     s_current_period_start :=
       Some (to_timestamp_or_now (cs_current_period_start session) now);
     s_current_period_end :=
       Some (to_timestamp_or_now (cs_current_period_end session) now);
     s_cancel_at_period_end := false;
     s_canceled_at := None;
     s_trial_start := to_timestamp_if_positive (cs_trial_start session);
     s_trial_end := to_timestamp_if_positive (cs_trial_end session);
     s_created_at := now;
     s_updated_at := now |}.

(** A write of the subscriptions table, rejected when it breaks the UNIQUE
    constraint on the reference it stores. *)
Definition write_subscriptions (ref : option string)
  (rows' : list SubscriptionRow) (bump : bool) : M unit :=
  fun db =>
    if violates_subscription_ref_unique ref rows'
    then (Throw duplicate_key, db)
    else (Ok tt,
          with_subscriptions rows' (if bump then bump_uuid db else db)).

Definition handleCheckoutSessionCompleted (session : CheckoutSession)
  (now : Time) : M unit :=
  match cs_mode session with
  | mode_subscription =>
    match cs_metadata_userId session, cs_metadata_planId session with
    | Some userId, Some planId =>
      subscription <-
        select (fun db =>
          queryOne (fun s => Nat.eqb (s_user_id s) userId)
                   (db_subscriptions db)) ;;
      match subscription with
      | Some _ =>
        rows <- select db_subscriptions ;;
        write_subscriptions (cs_subscription session)
          (update_where (fun s => Nat.eqb (s_user_id s) userId)
                        (checkout_update_row session now) rows)
          false
      | None =>
        match cs_customer session with
        | Some customer =>
          rows <- select db_subscriptions ;;
          id <- select db_next_uuid ;;
          write_subscriptions (cs_subscription session)
            (rows ++ [checkout_new_row id userId planId customer session now])
            true
        | None => throw not_null_violation
        end
      end
    | _, _ => throw "Missing metadata in checkout session"
    end
  | _ => ret tt
  end.

(** [UPDATE subscriptions SET status = $1, ... WHERE stripe_subscription_id =
    $8] of [handleSubscriptionUpdated]. *)
Definition subscription_update_row (subscription : StripeSubscription)
  (now : Time) (s : SubscriptionRow) : SubscriptionRow :=
  {| s_id := s_id s;
     s_user_id := s_user_id s;
     s_plan_id := s_plan_id s;
     s_stripe_customer_id := s_stripe_customer_id s;
     s_stripe_subscription_id := s_stripe_subscription_id s;
     s_status := ss_status subscription;
     s_current_period_start :=
       Some (to_timestamp (ss_current_period_start subscription));
     s_current_period_end :=
       Some (to_timestamp (ss_current_period_end subscription));
     s_cancel_at_period_end := ss_cancel_at_period_end subscription;
     s_canceled_at :=
       match ss_canceled_at subscription with
       | Some t => Some (to_timestamp t)
       | None => s_canceled_at s
       end;
     s_trial_start := to_timestamp_if_positive (ss_trial_start subscription);
     s_trial_end := to_timestamp_if_positive (ss_trial_end subscription);
     s_created_at := s_created_at s;
     s_updated_at := now |}.

Definition has_subscription_ref (ref : string) (s : SubscriptionRow) : bool :=
  option_string_eqb (s_stripe_subscription_id s) ref.

Definition handleSubscriptionUpdated (subscription : StripeSubscription)
  (now : Time) : M unit :=
  dbSubscription <-
    select (fun db =>
      queryOne (has_subscription_ref (ss_id subscription))
               (db_subscriptions db)) ;;
  match dbSubscription with
  | None => ret tt
  | Some _ =>
    execute (fun db =>
      with_subscriptions
        (update_where (has_subscription_ref (ss_id subscription))
                      (subscription_update_row subscription now)
                      (db_subscriptions db))
        db)
  end.

(** [UPDATE subscriptions SET status = 'canceled', canceled_at = NOW(),
    updated_at = NOW() WHERE stripe_subscription_id = $1]. *)
Definition subscription_deleted_row (now : Time) (s : SubscriptionRow)
  : SubscriptionRow :=
  {| s_id := s_id s;
     s_user_id := s_user_id s;
     s_plan_id := s_plan_id s;
     s_stripe_customer_id := s_stripe_customer_id s;
     s_stripe_subscription_id := s_stripe_subscription_id s;
     s_status := canceled;
     s_current_period_start := s_current_period_start s;
     s_current_period_end := s_current_period_end s;
     s_cancel_at_period_end := s_cancel_at_period_end s;
     s_canceled_at := Some now;
     s_trial_start := s_trial_start s;
     s_trial_end := s_trial_end s;
     s_created_at := s_created_at s;
     s_updated_at := now |}.

Definition handleSubscriptionDeleted (subscription : StripeSubscription)
  (now : Time) : M unit :=
  execute (fun db =>
    with_subscriptions
      (update_where (has_subscription_ref (ss_id subscription))
                    (subscription_deleted_row now)
                    (db_subscriptions db))
      db).

(** [SELECT id FROM users WHERE stripe_customer_id = $1]. *)
Definition user_by_customer (customer : string) (db : DB) : option UserRow :=
  queryOne (fun u => option_string_eqb (u_stripe_customer_id u) customer)
           (db_users db).

Definition has_invoice_ref (ref : string) (i : InvoiceRow) : bool :=
  String.eqb (i_stripe_invoice_id i) ref.

(** [INSERT INTO invoices ... ON CONFLICT (stripe_invoice_id) ...]: the row
    is appended unless one with the same provider reference exists, in which
    case the conflict action is applied to it. *)
Definition upsert_invoice (row : InvoiceRow)
  (on_conflict : InvoiceRow -> InvoiceRow) : M unit :=
  execute (fun db =>
    match queryOne (has_invoice_ref (i_stripe_invoice_id row))
                   (db_invoices db) with
    | Some _ =>
      with_invoices
        (update_where (has_invoice_ref (i_stripe_invoice_id row))
                      on_conflict (db_invoices db))
        db
    | None => with_invoices (db_invoices db ++ [row]) (bump_uuid db)
    end).

Definition set_invoice_status (status : InvoiceStatus)
  (paid_at : option Time) (i : InvoiceRow) : InvoiceRow :=
  {| i_id := i_id i;
     i_user_id := i_user_id i;
     i_subscription_id := i_subscription_id i;
     i_stripe_invoice_id := i_stripe_invoice_id i;
     i_stripe_charge_id := i_stripe_charge_id i;
     i_amount := i_amount i;
     i_currency := i_currency i;
     i_status := status;
     i_invoice_pdf := i_invoice_pdf i;
     i_hosted_invoice_url := i_hosted_invoice_url i;
     i_period_start := i_period_start i;
     i_period_end := i_period_end i;
     i_paid_at := paid_at;
     i_created_at := i_created_at i |}.

(** [let subscriptionId = null; if (invoice.subscription) { ... }]. *)
Definition subscription_id_for (invoice : StripeInvoice) (db : DB)
  : option UUID :=
  match truthy_string (si_subscription invoice) with
  | Some ref =>
    match queryOne (has_subscription_ref ref) (db_subscriptions db) with
    | Some subscription => Some (s_id subscription)
    | None => None
    end
  | None => None
  end.

Definition handleInvoicePaymentSucceeded (invoice : StripeInvoice)
  (now : Time) : M unit :=
  match truthy_string (si_customer invoice) with
  | None => ret tt
  | Some customer =>
    user <- select (user_by_customer customer) ;;
    match user with
    | None => ret tt
    | Some user =>
      subscriptionId <- select (subscription_id_for invoice) ;;
      id <- select db_next_uuid ;;
      upsert_invoice
        {| i_id := id;
           i_user_id := u_id user;
           i_subscription_id := subscriptionId;
           i_stripe_invoice_id := si_id invoice;
           i_stripe_charge_id := si_charge invoice;
           i_amount := si_amount_due invoice;
           i_currency := toUpperCase (si_currency invoice);
           i_status := si_status invoice;
           i_invoice_pdf := si_invoice_pdf invoice;
           i_hosted_invoice_url := si_hosted_invoice_url invoice;
           i_period_start := Some (to_timestamp (si_period_start invoice));
           i_period_end := Some (to_timestamp (si_period_end invoice));
           i_paid_at := Some now;
           i_created_at := now |}
        (fun existing =>
           set_invoice_status (si_status invoice) (Some now) existing)
    end
  end.

Definition handleInvoicePaymentFailed (invoice : StripeInvoice)
  (now : Time) : M unit :=
  match truthy_string (si_customer invoice) with
  | None => ret tt
  | Some customer =>
    user <- select (user_by_customer customer) ;;
    match user with
    | None => ret tt
    | Some user =>
      id <- select db_next_uuid ;;
      upsert_invoice
        {| i_id := id;
           i_user_id := u_id user;
           i_subscription_id := None;
           i_stripe_invoice_id := si_id invoice;
           i_stripe_charge_id := si_charge invoice;
           i_amount := si_amount_due invoice;
           i_currency := toUpperCase (si_currency invoice);
           i_status := open;
           i_invoice_pdf := None;
           i_hosted_invoice_url := None;
           i_period_start := Some (to_timestamp (si_period_start invoice));
           i_period_end := Some (to_timestamp (si_period_end invoice));
           i_paid_at := None;
           i_created_at := now |}
        (fun existing => set_invoice_status open (i_paid_at existing) existing)
    end
  end.

Definition handleInvoiceFinalized (invoice : StripeInvoice)
  (now : Time) : M unit :=
  match truthy_string (si_customer invoice) with
  | None => ret tt
  | Some customer =>
    user <- select (user_by_customer customer) ;;
    match user with
    | None => ret tt
    | Some user =>
      id <- select db_next_uuid ;;
      upsert_invoice
        {| i_id := id;
           i_user_id := u_id user;
           i_subscription_id := None;
           i_stripe_invoice_id := si_id invoice;
           i_stripe_charge_id := si_charge invoice;
           i_amount := si_amount_due invoice;
           i_currency := toUpperCase (si_currency invoice);
           i_status := si_status invoice;
           i_invoice_pdf := si_invoice_pdf invoice;
           i_hosted_invoice_url := si_hosted_invoice_url invoice;
           i_period_start := Some (to_timestamp (si_period_start invoice));
           i_period_end := Some (to_timestamp (si_period_end invoice));
           i_paid_at := None;
           i_created_at := now |}
        (fun existing => existing)
    end
  end.

(** ** routes/webhooks.ts: [POST /webhooks/stripe] *)

Record WebhookRequest := {
  (** [req.headers['stripe-signature']] *)
  wh_signature : option string;
  (** [req.body], as it reaches the route *)
  wh_body : string
}.

Inductive WebhookBody :=
| wb_error (error : string)
| wb_received.

Definition WebhookResponse : Type := Z * WebhookBody.

(** [SELECT id FROM webhook_events WHERE stripe_event_id = $1]. *)
Definition existingEvent (id : string) (db : DB) : option WebhookEventRow :=
  queryOne (fun r => String.eqb (we_stripe_event_id r) id)
           (db_webhook_events db).

(** [INSERT INTO webhook_events (stripe_event_id, event_type, payload)].  The
    route reaches it only after the lookup above found no row for the id. *)
Definition store_event (event : StripeEvent) (now : Time) (db : DB) : DB :=
  with_webhook_events
    (db_webhook_events db ++
     [{| we_id := db_next_uuid db;
         we_stripe_event_id := ev_id event;
         we_event_type := event_type event;
         we_payload := event;
         we_processed_at := None;
         we_error_message := None;
         we_retry_count := 0;
         we_created_at := now |}])
    (bump_uuid db).

Definition set_processed (now : Time) (r : WebhookEventRow)
  : WebhookEventRow :=
  {| we_id := we_id r;
     we_stripe_event_id := we_stripe_event_id r;
     we_event_type := we_event_type r;
     we_payload := we_payload r;
     we_processed_at := Some now;
     we_error_message := we_error_message r;
     we_retry_count := we_retry_count r;
     we_created_at := we_created_at r |}.

Definition set_error (message : string) (r : WebhookEventRow)
  : WebhookEventRow :=
  {| we_id := we_id r;
     we_stripe_event_id := we_stripe_event_id r;
     we_event_type := we_event_type r;
     we_payload := we_payload r;
     we_processed_at := we_processed_at r;
     we_error_message := Some message;
     we_retry_count := we_retry_count r + 1;
     we_created_at := we_created_at r |}.

(** [UPDATE webhook_events SET processed_at = NOW() WHERE stripe_event_id =
    $1]. *)
Definition mark_processed (id : string) (now : Time) (db : DB) : DB :=
  with_webhook_events
    (update_where (fun r => String.eqb (we_stripe_event_id r) id)
                  (set_processed now) (db_webhook_events db))
    db.

(** [UPDATE webhook_events SET error_message = $1, retry_count = retry_count
    + 1 WHERE stripe_event_id = $2]. *)
Definition record_error (message id : string) (db : DB) : DB :=
  with_webhook_events
    (update_where (fun r => String.eqb (we_stripe_event_id r) id)
                  (set_error message) (db_webhook_events db))
    db.

(** The [switch (event.type)]. *)
Definition dispatch (event : StripeEvent) (now : Time) : M unit :=
  match ev_data event with
  | checkout_session_completed session =>
    handleCheckoutSessionCompleted session now
  | customer_subscription_created subscription
  | customer_subscription_updated subscription =>
    handleSubscriptionUpdated subscription now
  | customer_subscription_deleted subscription =>
    handleSubscriptionDeleted subscription now
  | invoice_payment_succeeded invoice =>
    handleInvoicePaymentSucceeded invoice now
  | invoice_payment_failed invoice =>
    handleInvoicePaymentFailed invoice now
  | invoice_finalized invoice =>
    handleInvoiceFinalized invoice now
  | unhandled_event _ => ret tt
  end.

Definition stripe_webhook `{Externals} (req : WebhookRequest) (now : Time)
  (db : DB) : WebhookResponse * DB :=
  match truthy_string (wh_signature req) with
  | None => ((400, wb_error "Missing stripe-signature header"), db)
  | Some signature =>
    match constructWebhookEvent (wh_body req) signature with
    | None => ((400, wb_error "Invalid signature"), db)
    | Some event =>
      match existingEvent (ev_id event) db with
      | Some _ => ((200, wb_received), db)
      | None =>
        match dispatch event now (store_event event now db) with
        | (Ok _, db') =>
          ((200, wb_received), mark_processed (ev_id event) now db')
        | (Throw message, db') =>
          ((500, wb_error "Webhook processing failed"),
           record_error message (ev_id event) db')
        end
      end
    end
  end.

(** A run of deliveries, each at its own instant. *)
Fixpoint deliver_all `{Externals} (ds : list (WebhookRequest * Time))
  (db : DB) : DB :=
  match ds with
  | [] => db
  | (req, now) :: ds' => deliver_all ds' (snd (stripe_webhook req now db))
  end.

(** ** middleware/auth.ts *)

Record ApiUser := {
  view_id : UUID;
  view_email : string;
  view_firstName : string;
  view_lastName : string;
  view_emailVerified : bool;
  view_role : Role;
  view_createdAt : Time;
  view_updatedAt : Time
}.

(** The JSON envelopes of the routes below. *)
Inductive ApiBody :=
| api_error (code message : string)
| api_message (message : string)
| api_tokens (accessToken refreshToken : string) (expiresIn : Z)
             (user : option ApiUser).

Definition ApiResponse : Type := Z * ApiBody.

(** [req.user]. *)
Record RequestUser := {
  ru_id : UUID;
  ru_email : string;
  ru_role : Role
}.

Definition generateAccessToken `{Externals} (user : RequestUser) (now : Time)
  : string :=
  jwt_sign {| jwt_userId := ru_id user;
              jwt_email := Some (ru_email user);
              jwt_role := Some (ru_role user) |}
           (cfg_jwt_secret config) (cfg_jwt_expiresIn config) now.

Definition generateRefreshToken `{Externals} (userId : UUID) (now : Time)
  : string :=
  jwt_sign {| jwt_userId := userId; jwt_email := None; jwt_role := None |}
           (cfg_jwt_refreshSecret config) (cfg_jwt_refreshExpiresIn config)
           now.

Definition verifyRefreshToken `{Externals} (token : string) (now : Time)
  : JwtOutcome :=
  jwt_verify token (cfg_jwt_refreshSecret config) now.

(** [authHeader.substring(7)]. *)
Definition substring_from (n : nat) (s : string) : string :=
  String.substring n (String.length s - n) s.

(** The [authenticate] middleware: the response it sends, or the user it
    attaches to the request before calling [next()]. *)
Definition authenticate `{Externals} (authorization : option string)
  (now : Time) (db : DB) : ApiResponse + RequestUser :=
  match truthy_string authorization with
  | None => inl (401, api_error "UNAUTHORIZED" "Access token required")
  | Some authHeader =>
    if negb (String.prefix "Bearer " authHeader)
    then inl (401, api_error "UNAUTHORIZED" "Access token required")
    else
      match jwt_verify (substring_from 7 authHeader)
                       (cfg_jwt_secret config) now with
      | JwtOk decoded =>
        match queryOne (fun u => Nat.eqb (u_id u) (jwt_userId decoded))
                       (db_users db) with
        | None =>
          inl (401, api_error "UNAUTHORIZED" "User not found or deactivated")
        | Some user =>
          match u_deleted_at user with
          | Some _ =>
            inl (401,
                 api_error "UNAUTHORIZED" "User not found or deactivated")
          | None =>
            inr {| ru_id := u_id user;
                   ru_email := u_email user;
                   ru_role := u_role user |}
          end
        end
      | JwtTokenExpired =>
        inl (401, api_error "TOKEN_EXPIRED" "Access token expired")
      | JwtError =>
        inl (401, api_error "INVALID_TOKEN" "Invalid access token")
      end
  end.

(** ** routes/auth.ts *)

(** The [BEFORE UPDATE] trigger of [users] stamps [updated_at]; each UPDATE
    of the table below is composed with it. *)
Definition touch_user (now : Time) (u : UserRow) : UserRow :=
  {| u_id := u_id u;
     u_email := u_email u;
     u_password_hash := u_password_hash u;
     u_first_name := u_first_name u;
     u_last_name := u_last_name u;
     u_email_verified := u_email_verified u;
     u_role := u_role u;
     u_last_login_at := u_last_login_at u;
     u_failed_login_attempts := u_failed_login_attempts u;
     u_locked_until := u_locked_until u;
     u_stripe_customer_id := u_stripe_customer_id u;
     u_created_at := u_created_at u;
     u_updated_at := now;
     u_deleted_at := u_deleted_at u |}.

(** [SET failed_login_attempts = $1, locked_until = $2]. *)
Definition set_login_state (failed : Z) (locked : option Time)
  (last_login : option Time) (u : UserRow) : UserRow :=
  {| u_id := u_id u;
     u_email := u_email u;
     u_password_hash := u_password_hash u;
     u_first_name := u_first_name u;
     u_last_name := u_last_name u;
     u_email_verified := u_email_verified u;
     u_role := u_role u;
     u_last_login_at := last_login;
     u_failed_login_attempts := Some failed;
     u_locked_until := locked;
     u_stripe_customer_id := u_stripe_customer_id u;
     u_created_at := u_created_at u;
     u_updated_at := u_updated_at u;
     u_deleted_at := u_deleted_at u |}.

(** [SET password_hash = $1]. *)
Definition set_password_hash (hash : string) (u : UserRow) : UserRow :=
  {| u_id := u_id u;
     u_email := u_email u;
     u_password_hash := hash;
     u_first_name := u_first_name u;
     u_last_name := u_last_name u;
     u_email_verified := u_email_verified u;
     u_role := u_role u;
     u_last_login_at := u_last_login_at u;
     u_failed_login_attempts := u_failed_login_attempts u;
     u_locked_until := u_locked_until u;
     u_stripe_customer_id := u_stripe_customer_id u;
     u_created_at := u_created_at u;
     u_updated_at := u_updated_at u;
     u_deleted_at := u_deleted_at u |}.

Definition update_users (p : UserRow -> bool) (f : UserRow -> UserRow)
  (now : Time) : M unit :=
  execute (fun db =>
    with_users
      (update_where p (fun u => touch_user now (f u)) (db_users db)) db).

Definition has_user_id (id : UUID) (u : UserRow) : bool := Nat.eqb (u_id u) id.

Definition is_null {A : Type} (x : option A) : bool :=
  match x with Some _ => false | None => true end.

(** [WHERE email = $1 AND deleted_at IS NULL]. *)
Definition active_user_by_email (email : string) (db : DB) : option UserRow :=
  queryOne (fun u => String.eqb (u_email u) email && is_null (u_deleted_at u))%bool
           (db_users db).

(** [WHERE id = $1 AND deleted_at IS NULL]. *)
Definition active_user_by_id (id : UUID) (db : DB) : option UserRow :=
  queryOne (fun u => has_user_id id u && is_null (u_deleted_at u))%bool
           (db_users db).

Definition user_view (u : UserRow) : ApiUser :=
  {| view_id := u_id u;
     view_email := u_email u;
     view_firstName := u_first_name u;
     view_lastName := u_last_name u;
     view_emailVerified := u_email_verified u;
     view_role := u_role u;
     view_createdAt := u_created_at u;
     view_updatedAt := u_updated_at u |}.

Definition request_user (u : UserRow) : RequestUser :=
  {| ru_id := u_id u; ru_email := u_email u; ru_role := u_role u |}.

Definition lockout_threshold : Z := 5.
Definition lockout_ms : Z := 30 * 60 * 1000.
Definition refresh_lifetime_ms : Z := 30 * 24 * 60 * 60 * 1000.
Definition access_expiresIn : Z := 7 * 24 * 60 * 60.

Definition has_token_hash (hash : string) (r : RefreshTokenRow) : bool :=
  String.eqb (rt_token_hash r) hash.

(** [SELECT id, user_id, expires_at, revoked_at FROM refresh_tokens WHERE
    token_hash = $1]. *)
Definition storedToken (hash : string) (db : DB) : option RefreshTokenRow :=
  queryOne (has_token_hash hash) (db_refresh_tokens db).

(** [INSERT INTO refresh_tokens (...)]; [token_hash] is UNIQUE. *)
Definition insert_refresh_token (userId : UUID) (hash : string)
  (ip user_agent : option string) (replaced_by : option UUID) (now : Time)
  : M unit :=
  fun db =>
    if existsb (has_token_hash hash) (db_refresh_tokens db)
    then (Throw duplicate_key, db)
    else
      (Ok tt,
       with_refresh_tokens
         (db_refresh_tokens db ++
          [{| rt_id := db_next_uuid db;
              rt_user_id := userId;
              rt_token_hash := hash;
              rt_expires_at := now + refresh_lifetime_ms;
              rt_created_at := now;
              rt_revoked_at := None;
              rt_replaced_by_token := replaced_by;
              rt_ip_address := ip;
              rt_user_agent := user_agent |}])
         (bump_uuid db)).

(** [SET revoked_at = NOW()]. *)
Definition revoke (now : Time) (r : RefreshTokenRow) : RefreshTokenRow :=
  {| rt_id := rt_id r;
     rt_user_id := rt_user_id r;
     rt_token_hash := rt_token_hash r;
     rt_expires_at := rt_expires_at r;
     rt_created_at := rt_created_at r;
     rt_revoked_at := Some now;
     rt_replaced_by_token := rt_replaced_by_token r;
     rt_ip_address := rt_ip_address r;
     rt_user_agent := rt_user_agent r |}.

Definition update_refresh_tokens (p : RefreshTokenRow -> bool)
  (f : RefreshTokenRow -> RefreshTokenRow) : M unit :=
  execute (fun db =>
    with_refresh_tokens (update_where p f (db_refresh_tokens db)) db).

(** The route's [try { ... } catch (error) { res.status(500)... }]. *)
Definition catch_500 (message : string) (m : M ApiResponse) (db : DB)
  : ApiResponse * DB :=
  match m db with
  | (Ok response, db') => (response, db')
  | (Throw _, db') => ((500, api_error "INTERNAL_ERROR" message), db')
  end.

(** [user?.locked_until && new Date(user.locked_until) > new Date()]. *)
Definition is_locked (user : option UserRow) (now : Time) : bool :=
  match user with
  | Some u =>
    match u_locked_until u with
    | Some until => now <? until
    | None => false
    end
  | None => false
  end.

Record LoginRequest := {
  login_email : string;
  login_password : string;
  login_ip : option string;
  login_user_agent : option string
}.

(** [POST /auth/login], after the rate limiter and the validation chain. *)
Definition login `{Externals} (req : LoginRequest) (now : Time)
  : DB -> ApiResponse * DB :=
  catch_500 "Login failed. Please try again." (
    user <- select (active_user_by_email (toLowerCase (login_email req))) ;;
    if is_locked user now
    then ret (423, api_error "ACCOUNT_LOCKED"
                     "Account is temporarily locked. Please try again later.")
    else
      let invalid := ret (401, api_error "INVALID_CREDENTIALS"
                                         "Invalid email or password") in
      match user with
      | None => invalid
      | Some user =>
        if negb (bcrypt_compare (login_password req) (u_password_hash user))
        then
          let failedAttempts := or_zero (u_failed_login_attempts user) + 1 in
          let lockedUntil :=
            if lockout_threshold <=? failedAttempts
            then Some (now + lockout_ms) else None in
          update_users (has_user_id (u_id user))
            (fun u => set_login_state failedAttempts lockedUntil
                                      (u_last_login_at u) u) now ;;;
          invalid
        else
          update_users (has_user_id (u_id user))
            (set_login_state 0 None (Some now)) now ;;;
          let accessToken := generateAccessToken (request_user user) now in
          let refreshToken := generateRefreshToken (u_id user) now in
          insert_refresh_token (u_id user) (sha256_hex refreshToken)
            (login_ip req) (login_user_agent req) None now ;;;
          ret (200, api_tokens accessToken refreshToken access_expiresIn
                               (Some (user_view user)))
      end).

Record RefreshRequest := {
  refresh_refreshToken : option string;
  refresh_ip : option string;
  refresh_user_agent : option string
}.

(** [POST /auth/refresh]. *)
Definition refresh `{Externals} (req : RefreshRequest) (now : Time)
  : DB -> ApiResponse * DB :=
  catch_500 "Token refresh failed" (
    match truthy_string (refresh_refreshToken req) with
    | None => ret (401, api_error "REFRESH_TOKEN_REQUIRED"
                                  "Refresh token is required")
    | Some refreshToken =>
      match verifyRefreshToken refreshToken now with
      | JwtOk decoded =>
        stored <- select (storedToken (sha256_hex refreshToken)) ;;
        let usable :=
          match stored with
          | Some t => is_null (rt_revoked_at t) && negb (rt_expires_at t <? now)
          | None => false
          end%bool in
        match stored, usable with
        | Some stored, true =>
          user <- select (active_user_by_id (jwt_userId decoded)) ;;
          match user with
          | None => ret (401, api_error "USER_NOT_FOUND" "User not found")
          | Some user =>
            update_refresh_tokens
              (fun r => Nat.eqb (rt_id r) (rt_id stored)) (revoke now) ;;;
            let newAccessToken :=
              generateAccessToken (request_user user) now in
            let newRefreshToken := generateRefreshToken (u_id user) now in
            insert_refresh_token (u_id user) (sha256_hex newRefreshToken)
              (refresh_ip req) (refresh_user_agent req)
              (Some (rt_id stored)) now ;;;
            ret (200, api_tokens newAccessToken newRefreshToken
                                 access_expiresIn None)
          end
        | _, _ => ret (401, api_error "INVALID_REFRESH_TOKEN"
                                      "Invalid or expired refresh token")
        end
      | _ => ret (401, api_error "INVALID_REFRESH_TOKEN"
                                 "Invalid refresh token")
      end
    end).

Record ChangePasswordRequest := {
  cp_authorization : option string;
  cp_currentPassword : string;
  cp_newPassword : string;
  (** the salt [bcrypt.hash] draws for the new hash *)
  cp_salt : string
}.

(** [POST /auth/change-password]: [authenticate], then (after the validation
    chain) the handler. *)
Definition change_password `{Externals} (req : ChangePasswordRequest)
  (now : Time) (db : DB) : ApiResponse * DB :=
  match authenticate (cp_authorization req) now db with
  | inl response => (response, db)
  | inr req_user =>
    catch_500 "Failed to change password" (
      user <- select (active_user_by_id (ru_id req_user)) ;;
      match user with
      | None => ret (404, api_error "USER_NOT_FOUND" "User not found")
      | Some user =>
        if negb (bcrypt_compare (cp_currentPassword req)
                                (u_password_hash user))
        then ret (400, api_error "INVALID_PASSWORD"
                                 "Current password is incorrect")
        else
          let newPasswordHash :=
            bcrypt_hash (cp_newPassword req) (cfg_bcryptRounds config)
                        (cp_salt req) in
          update_users (has_user_id (ru_id req_user))
            (set_password_hash newPasswordHash) now ;;;
          update_refresh_tokens
            (fun r => Nat.eqb (rt_user_id r) (ru_id req_user)
                      && is_null (rt_revoked_at r))%bool
            (revoke now) ;;;
          ret (200, api_message "Password changed successfully")
      end) db
  end.

(** ** routes/profile.ts *)

(** The text of a UUID, as [CONCAT(email, '.deleted.', id)] prints it. *)
Definition uuid_text (id : UUID) : string :=
  NilZero.string_of_uint (Nat.to_uint id).

(** [SET deleted_at = NOW(), email = CONCAT(email, '.deleted.', id)]. *)
Definition soft_delete (now : Time) (u : UserRow) : UserRow :=
  {| u_id := u_id u;
     u_email := u_email u ++ ".deleted." ++ uuid_text (u_id u);
     u_password_hash := u_password_hash u;
     u_first_name := u_first_name u;
     u_last_name := u_last_name u;
     u_email_verified := u_email_verified u;
     u_role := u_role u;
     u_last_login_at := u_last_login_at u;
     u_failed_login_attempts := u_failed_login_attempts u;
     u_locked_until := u_locked_until u;
     u_stripe_customer_id := u_stripe_customer_id u;
     u_created_at := u_created_at u;
     u_updated_at := u_updated_at u;
     u_deleted_at := Some now |}.

Record DeleteAccountRequest := {
  del_authorization : option string;
  del_password : option string
}.

(** [DELETE /profile]. *)
Definition delete_account `{Externals} (req : DeleteAccountRequest)
  (now : Time) (db : DB) : ApiResponse * DB :=
  match authenticate (del_authorization req) now db with
  | inl response => (response, db)
  | inr req_user =>
    catch_500 "Failed to delete account" (
      match truthy_string (del_password req) with
      | None => ret (400, api_error "PASSWORD_REQUIRED"
                                    "Password is required to delete account")
      | Some password =>
        user <- select (active_user_by_id (ru_id req_user)) ;;
        match user with
        | None => ret (404, api_error "USER_NOT_FOUND" "User not found")
        | Some user =>
          if negb (bcrypt_compare password (u_password_hash user))
          then ret (400, api_error "INVALID_PASSWORD" "Password is incorrect")
          else
            update_users (has_user_id (ru_id req_user)) (soft_delete now)
                         now ;;;
            update_refresh_tokens
              (fun r => Nat.eqb (rt_user_id r) (ru_id req_user))
              (revoke now) ;;;
            ret (200, api_message "Account deleted successfully")
        end
      end) db
  end.

(** ** Notions used in the statements *)

(** The event a delivery carries once its signature header is present and
    verified; [None] for a delivery the endpoint rejects. *)
Definition verified_event `{Externals} (req : WebhookRequest)
  : option StripeEvent :=
  match truthy_string (wh_signature req) with
  | Some signature => constructWebhookEvent (wh_body req) signature
  | None => None
  end.

(** The provider event id has a row in the ledger. *)
Definition recorded (id : string) (db : DB) : Prop :=
  existingEvent id db <> None.

(** The user an invoice event is attributed to: [invoice.customer], when
    set, looked up among the users. *)
Definition owner (invoice : StripeInvoice) (db : DB) : option UserRow :=
  match truthy_string (si_customer invoice) with
  | Some customer => user_by_customer customer db
  | None => None
  end.

Definition count_invoice_ref (ref : string) (rows : list InvoiceRow) : nat :=
  List.length (filter (has_invoice_ref ref) rows).

Definition invoice_row (ref : string) (db : DB) : option InvoiceRow :=
  queryOne (has_invoice_ref ref) (db_invoices db).

Definition subscription_row (ref : string) (db : DB)
  : option SubscriptionRow :=
  queryOne (has_subscription_ref ref) (db_subscriptions db).

(** No stored refresh token has this hash yet. *)
Definition unused_hash (hash : string) (db : DB) : Prop :=
  storedToken hash db = None.

(** The store after a successful rotation of [stored] into a token with hash
    [hash], as [POST /auth/refresh] leaves it. *)
Definition rotated (stored : RefreshTokenRow) (userId : UUID) (hash : string)
  (ip user_agent : option string) (now : Time) (db : DB) : DB :=
  with_refresh_tokens
    (update_where (fun r => Nat.eqb (rt_id r) (rt_id stored)) (revoke now)
                  (db_refresh_tokens db) ++
     [{| rt_id := db_next_uuid db;
         rt_user_id := userId;
         rt_token_hash := hash;
         rt_expires_at := now + refresh_lifetime_ms;
         rt_created_at := now;
         rt_revoked_at := None;
         rt_replaced_by_token := Some (rt_id stored);
         rt_ip_address := ip;
         rt_user_agent := user_agent |}])
    (bump_uuid db).

(** The UNIQUE constraint on [users.email]. *)
Definition users_email_unique (db : DB) : Prop :=
  NoDup (map u_email (db_users db)).

(** The payload of an [Authorization] header that carries a bearer token
    accepted by [jwt.verify] at [now]: the requests that reach the
    user-exists check of [authenticate]. *)
Definition bearer_payload `{Externals} (authorization : option string)
  (now : Time) : option JwtPayload :=
  match truthy_string authorization with
  | Some authHeader =>
    if String.prefix "Bearer " authHeader then
      match jwt_verify (substring_from 7 authHeader)
                       (cfg_jwt_secret config) now with
      | JwtOk decoded => Some decoded
      | _ => None
      end
    else None
  | None => None
  end.

(** ** A reference instance of the libraries

    The theorems below hold for every instance of [Externals].  The instance
    here is a small executable stand-in on which the handlers can be run: a
    token is the text [secret:userId:iat:exp] (times in seconds, as
    jsonwebtoken stamps them), a password hash is the password behind a
    prefix, and a webhook body is verified against a table of known
    deliveries. *)

Definition nat_text (n : nat) : string :=
  NilZero.string_of_uint (Nat.to_uint n).

Definition text_nat (s : string) : option nat :=
  option_map Nat.of_uint (NilZero.uint_of_string s).

Fixpoint split_on (sep : ascii) (s : string) : list string :=
  match s with
  | EmptyString => [EmptyString]
  | String c s' =>
    if Ascii.eqb c sep then EmptyString :: split_on sep s'
    else
      match split_on sep s' with
      | [] => [String c EmptyString]
      | w :: ws => String c w :: ws
      end
  end.

Definition reference_sign (payload : JwtPayload) (secret : string)
  (expiresIn : Z) (now : Time) : string :=
  let iat := now / 1000 in
  secret ++ ":" ++ nat_text (jwt_userId payload)
         ++ ":" ++ nat_text (Z.to_nat iat)
         ++ ":" ++ nat_text (Z.to_nat (iat + expiresIn)).

Definition reference_verify (token secret : string) (now : Time)
  : JwtOutcome :=
  match split_on ":" token with
  | [s; uid; iat; exp] =>
    if String.eqb s secret then
      match text_nat uid, text_nat iat, text_nat exp with
      | Some uid, Some _, Some exp =>
        if Z.of_nat exp <=? now / 1000 then JwtTokenExpired
        else JwtOk {| jwt_userId := uid;
                      jwt_email := None;
                      jwt_role := None |}
      | _, _, _ => JwtError
      end
    else JwtError
  | _ => JwtError
  end.

Definition reference_config : Config :=
  {| cfg_jwt_secret := "access-secret";
     cfg_jwt_expiresIn := 7 * 24 * 60 * 60;
     cfg_jwt_refreshSecret := "refresh-secret";
     cfg_jwt_refreshExpiresIn := 30 * 24 * 60 * 60;
     cfg_stripe_webhookSecret := "whsec";
     cfg_bcryptRounds := 12 |}.

(** The deliveries the reference instance recognises: raw body, event. *)
Definition reference_constructEvent (known : list (string * StripeEvent))
  (payload signature secret : string) : option StripeEvent :=
  if String.eqb signature ("v1=" ++ secret)
  then option_map snd (find (fun kv => String.eqb (fst kv) payload) known)
  else None.

Definition reference_externals (known : list (string * StripeEvent))
  : Externals :=
  {| config := reference_config;
     stripe_constructEvent := reference_constructEvent known;
     bcrypt_compare := fun password hash =>
       String.eqb hash ("bcrypt:" ++ password);
     bcrypt_hash := fun password _ _ => "bcrypt:" ++ password;
     sha256_hex := fun s => "sha256:" ++ s;
     jwt_sign := reference_sign;
     jwt_verify := reference_verify |}.

(** ** Sample data *)

Definition empty_db : DB :=
  {| db_users := [];
     db_subscriptions := [];
     db_invoices := [];
     db_refresh_tokens := [];
     db_webhook_events := [];
     db_next_uuid := 100%nat |}.

Definition alice : UserRow :=
  {| u_id := 1%nat;
     u_email := "alice@example.com";
     u_password_hash := "bcrypt:Passw0rd";
     u_first_name := "Alice";
     u_last_name := "Doe";
     u_email_verified := true;
     u_role := RoleUser;
     u_last_login_at := None;
     u_failed_login_attempts := Some 0;
     u_locked_until := None;
     u_stripe_customer_id := Some "cus_alice";
     u_created_at := 1000;
     u_updated_at := 1000;
     u_deleted_at := None |}.

Definition alice_db : DB := with_users [alice] empty_db.

Definition alice_payload : JwtPayload :=
  {| jwt_userId := 1%nat; jwt_email := None; jwt_role := None |}.

Definition alice_request_user : RequestUser :=
  {| ru_id := 1%nat; ru_email := "alice@example.com"; ru_role := RoleUser |}.

(** *** Webhook deliveries *)

Definition sample_session_without_metadata : CheckoutSession :=
  {| cs_mode := mode_subscription;
     cs_metadata_userId := None;
     cs_metadata_planId := None;
     cs_customer := Some "cus_alice";
     cs_subscription := Some "sub_1";
     cs_current_period_start := None;
     cs_current_period_end := None;
     cs_trial_start := None;
     cs_trial_end := None |}.

Definition sample_invoice (status : InvoiceStatus) : StripeInvoice :=
  {| si_id := "in_1";
     si_customer := Some "cus_alice";
     si_subscription := None;
     si_charge := None;
     si_amount_due := 2900;
     si_currency := "usd";
     si_status := status;
     si_invoice_pdf := None;
     si_hosted_invoice_url := None;
     si_period_start := 1700000000;
     si_period_end := 1702592000 |}.

Definition sample_stripe_subscription : StripeSubscription :=
  {| ss_id := "sub_1";
     ss_status := canceled;
     ss_current_period_start := 1700000000;
     ss_current_period_end := 1702592000;
     ss_cancel_at_period_end := false;
     ss_canceled_at := Some 1701000000;
     ss_trial_start := None;
     ss_trial_end := None |}.

Definition evt_broken_checkout : StripeEvent :=
  {| ev_id := "evt_1";
     ev_data := checkout_session_completed sample_session_without_metadata |}.

Definition evt_paid : StripeEvent :=
  {| ev_id := "evt_2";
     ev_data := invoice_payment_succeeded (sample_invoice paid) |}.

Definition sample_deliveries : list (string * StripeEvent) :=
  [("body-1", evt_broken_checkout); ("body-2", evt_paid)].

Definition reference : Externals := reference_externals sample_deliveries.

Definition signed (body : string) : WebhookRequest :=
  {| wh_signature := Some "v1=whsec"; wh_body := body |}.

Definition forged (body : string) : WebhookRequest :=
  {| wh_signature := Some "v1=guess"; wh_body := body |}.

(** A subscription canceled locally at instant 4000. *)
Definition canceled_subscription : SubscriptionRow :=
  {| s_id := 7%nat;
     s_user_id := 1%nat;
     s_plan_id := 3%nat;
     s_stripe_customer_id := "cus_alice";
     s_stripe_subscription_id := Some "sub_1";
     s_status := canceled;
     s_current_period_start := Some 1000;
     s_current_period_end := Some 9000;
     s_cancel_at_period_end := false;
     s_canceled_at := Some 4000;
     s_trial_start := None;
     s_trial_end := None;
     s_created_at := 1000;
     s_updated_at := 4000 |}.

Definition canceled_db : DB :=
  with_subscriptions [canceled_subscription] alice_db.

(** Alice's invoice [in_1], already paid at instant 4000. *)
Definition paid_invoice : InvoiceRow :=
  {| i_id := 9%nat;
     i_user_id := 1%nat;
     i_subscription_id := None;
     i_stripe_invoice_id := "in_1";
     i_stripe_charge_id := None;
     i_amount := 2900;
     i_currency := "USD";
     i_status := paid;
     i_invoice_pdf := None;
     i_hosted_invoice_url := None;
     i_period_start := Some 1700000000000;
     i_period_end := Some 1702592000000;
     i_paid_at := Some 4000;
     i_created_at := 4000 |}.

Definition paid_db : DB := with_invoices [paid_invoice] alice_db.

(** *** Sessions *)

Definition presents (token : string) : RefreshRequest :=
  {| refresh_refreshToken := Some token;
     refresh_ip := Some "203.0.113.7";
     refresh_user_agent := Some "curl" |}.

Definition alice_login (password : string) : LoginRequest :=
  {| login_email := "Alice@Example.com";
     login_password := password;
     login_ip := Some "203.0.113.7";
     login_user_agent := Some "curl" |}.

(** Alice logged in on two devices, at instants 1000000 and 2000000. *)
Definition one_device_db : DB :=
  snd (@login reference (alice_login "Passw0rd") 1000000 alice_db).

Definition two_devices_db : DB :=
  snd (@login reference (alice_login "Passw0rd") 2000000 one_device_db).

Definition token_1 : string := @generateRefreshToken reference 1%nat 1000000.
Definition token_2 : string := @generateRefreshToken reference 1%nat 2000000.

Definition alice_bearer : string :=
  "Bearer " ++ @generateAccessToken reference alice_request_user 2000000.

(** The token pair handed out when [token_1] is rotated at instant
    3000000, and the store after that rotation. *)
Definition token_3 : string := @generateRefreshToken reference 1%nat 3000000.

Definition access_3 : string :=
  @generateAccessToken reference alice_request_user 3000000.

Definition rotated_db : DB :=
  snd (@refresh reference (presents token_1) 3000000 one_device_db).

Definition alice_changes_password : ChangePasswordRequest :=
  {| cp_authorization := Some alice_bearer;
     cp_currentPassword := "Passw0rd";
     cp_newPassword := "N3wPassw0rd";
     cp_salt := "salt" |}.

Definition alice_deletes_account : DeleteAccountRequest :=
  {| del_authorization := Some alice_bearer;
     del_password := Some "Passw0rd" |}.

(** Alice after four failed attempts. *)
Definition alice_after_four_failures : UserRow :=
  set_login_state 4 None None alice.

Definition four_failures_db : DB :=
  with_users [alice_after_four_failures] empty_db.

(** ** Further notions: the keys of the mirrored tables *)

(** The provider event ids the ledger holds, row by row. *)
Definition ledger_ids (db : DB) : list string :=
  map we_stripe_event_id (db_webhook_events db).

(** The provider invoice references the invoices table holds, row by row. *)
Definition invoice_refs (db : DB) : list string :=
  map i_stripe_invoice_id (db_invoices db).

(** The response and the store after a handler run from the endpoint. *)
Definition delivered `{Externals} (req : WebhookRequest) (now : Time)
  (db : DB) : DB :=
  snd (stripe_webhook req now db).

(** More sample deliveries for the reference instance. *)
Definition evt_customer_created : StripeEvent :=
  {| ev_id := "evt_3"; ev_data := unhandled_event "customer.created" |}.

Definition more_deliveries : list (string * StripeEvent) :=
  sample_deliveries ++ [("body-3", evt_customer_created)].

Definition reference_more : Externals := reference_externals more_deliveries.

(** Provider-side states of subscription [sub_1]. *)
Definition stripe_subscription_in (status : SubscriptionStatus)
  (cancel_at_period_end : bool) (canceled_at : option Z)
  : StripeSubscription :=
  {| ss_id := "sub_1";
     ss_status := status;
     ss_current_period_start := 1700000000;
     ss_current_period_end := 1702592000;
     ss_cancel_at_period_end := cancel_at_period_end;
     ss_canceled_at := canceled_at;
     ss_trial_start := None;
     ss_trial_end := None |}.

(** Alice's active subscription to plan 3. *)
Definition active_subscription : SubscriptionRow :=
  {| s_id := 7%nat;
     s_user_id := 1%nat;
     s_plan_id := 3%nat;
     s_stripe_customer_id := "cus_alice";
     s_stripe_subscription_id := Some "sub_1";
     s_status := active;
     s_current_period_start := Some 1000;
     s_current_period_end := Some 9000;
     s_cancel_at_period_end := false;
     s_canceled_at := None;
     s_trial_start := None;
     s_trial_end := None;
     s_created_at := 1000;
     s_updated_at := 1000 |}.

Definition subscribed_db : DB :=
  with_subscriptions [active_subscription] alice_db.

(** A completed checkout of plan [planId] by user 1. *)
Definition sample_session (planId : UUID) (subscription : string)
  : CheckoutSession :=
  {| cs_mode := mode_subscription;
     cs_metadata_userId := Some 1%nat;
     cs_metadata_planId := Some planId;
     cs_customer := Some "cus_alice";
     cs_subscription := Some subscription;
     cs_current_period_start := Some 1700000000;
     cs_current_period_end := Some 1702592000;
     cs_trial_start := None;
     cs_trial_end := None |}.

(** An invoice of subscription [sub_1]. *)
Definition subscription_invoice (status : InvoiceStatus) : StripeInvoice :=
  {| si_id := "in_2";
     si_customer := Some "cus_alice";
     si_subscription := Some "sub_1";
     si_charge := Some "ch_2";
     si_amount_due := 2900;
     si_currency := "usd";
     si_status := status;
     si_invoice_pdf := None;
     si_hosted_invoice_url := None;
     si_period_start := 1700000000;
     si_period_end := 1702592000 |}.

(** ** middleware/auth.ts: the other middlewares *)

(** [requireAdmin]: the response it sends, or [None] when it calls
    [next()]. *)
Definition requireAdmin (user : option RequestUser) : option ApiResponse :=
  match user with
  | Some {| ru_role := RoleAdmin |} => None
  | _ => Some (403, api_error "FORBIDDEN" "Admin access required")
  end.

(** [optionalAuth]: the user it attaches, if any; it always calls
    [next()]. *)
Definition optionalAuth `{Externals} (authorization : option string)
  (now : Time) (db : DB) : option RequestUser :=
  match truthy_string authorization with
  | None => None
  | Some authHeader =>
    if negb (String.prefix "Bearer " authHeader) then None
    else
      match jwt_verify (substring_from 7 authHeader)
                       (cfg_jwt_secret config) now with
      | JwtOk decoded =>
        match active_user_by_id (jwt_userId decoded) db with
        | Some user => Some (request_user user)
        | None => None
        end
      | _ => None
      end
  end.

(** ** routes/auth.ts: logout and the current user *)

Record LogoutRequest := {
  lo_authorization : option string;
  lo_refreshToken : option string
}.

(** [POST /auth/logout]. *)
Definition logout `{Externals} (req : LogoutRequest) (now : Time) (db : DB)
  : ApiResponse * DB :=
  match authenticate (lo_authorization req) now db with
  | inl response => (response, db)
  | inr _ =>
    catch_500 "Logout failed" (
      match truthy_string (lo_refreshToken req) with
      | Some refreshToken =>
        update_refresh_tokens (has_token_hash (sha256_hex refreshToken))
                              (revoke now)
      | None => ret tt
      end ;;;
      ret (200, api_message "Logged out successfully")) db
  end.

(** [GET /auth/me]: the error response, or the user sent with status 200. *)
Definition me `{Externals} (authorization : option string) (now : Time)
  (db : DB) : ApiResponse + ApiUser :=
  match authenticate authorization now db with
  | inl response => inl response
  | inr req_user =>
    match queryOne (has_user_id (ru_id req_user)) (db_users db) with
    | None => inl (404, api_error "USER_NOT_FOUND" "User not found")
    | Some user => inr (user_view user)
    end
  end.

(** What [authenticate] reads of a user row. *)
Definition identity (u : UserRow) : UUID * string * Role * bool :=
  (u_id u, u_email u, u_role u, is_null (u_deleted_at u)).

Definition alice_logs_out (token : option string) : LogoutRequest :=
  {| lo_authorization := Some alice_bearer; lo_refreshToken := token |}.

(** Bob, a second user, logged in at instant 1500000. *)
Definition bob : UserRow :=
  {| u_id := 2%nat;
     u_email := "bob@example.com";
     u_password_hash := "bcrypt:hunter2Hunter";
     u_first_name := "Bob";
     u_last_name := "Roe";
     u_email_verified := true;
     u_role := RoleAdmin;
     u_last_login_at := None;
     u_failed_login_attempts := Some 0;
     u_locked_until := None;
     u_stripe_customer_id := None;
     u_created_at := 1000;
     u_updated_at := 1000;
     u_deleted_at := None |}.

Definition bob_login : LoginRequest :=
  {| login_email := "bob@example.com";
     login_password := "hunter2Hunter";
     login_ip := None;
     login_user_agent := None |}.

Definition alice_and_bob_db : DB :=
  snd (@login reference bob_login 1500000
         (with_users [alice; bob] two_devices_db)).

Definition bob_token : string := @generateRefreshToken reference 2%nat 1500000.

(** * Verification *)

(** ** Row lists *)

Section RowLists.
Context {A : Type}.
Implicit Types (p q : A -> bool) (f : A -> A) (rows : list A).

Lemma queryOne_app p rows rows' :
  queryOne p (rows ++ rows') =
  match queryOne p rows with
  | Some r => Some r
  | None => queryOne p rows'
  end.
Proof.
  unfold queryOne. induction rows as [|r rows IH]; simpl; [reflexivity|].
  destruct (p r); [reflexivity | exact IH].
Qed.

(** An UPDATE that does not touch the columns a lookup filters on returns
    the updated image of the row the lookup returned before. *)
Lemma queryOne_update_where p q f rows :
  (forall r, p (f r) = p r) ->
  queryOne p (update_where q f rows) =
  option_map (fun r => if q r then f r else r) (queryOne p rows).
Proof.
  intros Hp. unfold queryOne, update_where.
  induction rows as [|r rows IH]; simpl; [reflexivity|].
  assert (Hr : p (if q r then f r else r) = p r)
    by (destruct (q r); [apply Hp | reflexivity]).
  rewrite Hr. destruct (p r); [reflexivity | exact IH].
Qed.

Lemma queryOne_some p rows r :
  queryOne p rows = Some r -> In r rows /\ p r = true.
Proof. apply find_some. Qed.

Lemma queryOne_none_existsb p rows :
  existsb p rows = false -> queryOne p rows = None.
Proof.
  unfold queryOne. induction rows as [|r rows IH]; simpl; [reflexivity|].
  destruct (p r); simpl; [discriminate | exact IH].
Qed.

Lemma update_where_length p f rows :
  List.length (update_where p f rows) = List.length rows.
Proof. apply length_map. Qed.

Lemma update_where_id p rows : update_where p (fun r => r) rows = rows.
Proof.
  unfold update_where. induction rows as [|r rows IH]; simpl;
    [reflexivity|].
  rewrite IH. destruct (p r); reflexivity.
Qed.
End RowLists.

(** ** The webhook ledger *)

Ltac run_monad :=
  unfold bind, select, execute, ret, throw; simpl.

Ltac case_match :=
  match goal with
  | |- context [match ?x with _ => _ end] => destruct x eqn:?
  | |- context [if ?x then _ else _] => destruct x eqn:?
  end.

(** No event handler writes the ledger. *)
Lemma dispatch_keeps_ledger event now db :
  db_webhook_events (snd (dispatch event now db)) = db_webhook_events db.
Proof.
  unfold dispatch, handleCheckoutSessionCompleted, handleSubscriptionUpdated,
    handleSubscriptionDeleted, handleInvoicePaymentSucceeded,
    handleInvoicePaymentFailed, handleInvoiceFinalized, upsert_invoice,
    write_subscriptions.
  run_monad.
  repeat (case_match; simpl; try reflexivity).
Qed.

Lemma existingEvent_update id id' f db :
  (forall r, we_stripe_event_id (f r) = we_stripe_event_id r) ->
  existingEvent id
    (with_webhook_events
       (update_where (fun r => String.eqb (we_stripe_event_id r) id') f
                     (db_webhook_events db)) db) =
  option_map
    (fun r => if String.eqb (we_stripe_event_id r) id' then f r else r)
    (existingEvent id db).
Proof.
  intros Hf. unfold existingEvent. simpl.
  apply queryOne_update_where. intros r. now rewrite Hf.
Qed.

Lemma recorded_mark_processed id id' now db :
  recorded id db -> recorded id (mark_processed id' now db).
Proof.
  unfold recorded, mark_processed. intros Hrec.
  rewrite existingEvent_update by reflexivity.
  destruct (existingEvent id db); [discriminate | contradiction].
Qed.

Lemma recorded_record_error id id' message db :
  recorded id db -> recorded id (record_error message id' db).
Proof.
  unfold recorded, record_error. intros Hrec.
  rewrite existingEvent_update by reflexivity.
  destruct (existingEvent id db); [discriminate | contradiction].
Qed.

Lemma recorded_after_dispatch id event now db :
  recorded id (store_event event now db) ->
  recorded id (snd (dispatch event now (store_event event now db))).
Proof.
  unfold recorded, existingEvent.
  now rewrite dispatch_keeps_ledger.
Qed.

Lemma recorded_store_event_old id event now db :
  recorded id db -> recorded id (store_event event now db).
Proof.
  unfold recorded, existingEvent, store_event. simpl.
  rewrite queryOne_app.
  destruct (queryOne _ (db_webhook_events db)); [discriminate | contradiction].
Qed.

Lemma recorded_store_event_new event now db :
  recorded (ev_id event) (store_event event now db).
Proof.
  unfold recorded, existingEvent, store_event. simpl.
  rewrite queryOne_app.
  destruct (queryOne _ (db_webhook_events db)); [discriminate|].
  unfold queryOne. simpl. rewrite String.eqb_refl. discriminate.
Qed.

(** What the endpoint does with a verified delivery. *)
Lemma stripe_webhook_verified `{Externals} req event now db :
  verified_event req = Some event ->
  stripe_webhook req now db =
  match existingEvent (ev_id event) db with
  | Some _ => ((200, wb_received), db)
  | None =>
    match dispatch event now (store_event event now db) with
    | (Ok _, db') => ((200, wb_received), mark_processed (ev_id event) now db')
    | (Throw message, db') =>
      ((500, wb_error "Webhook processing failed"),
       record_error message (ev_id event) db')
    end
  end.
Proof.
  unfold verified_event, stripe_webhook. intros Hv.
  destruct (truthy_string (wh_signature req)); [|discriminate].
  rewrite Hv. reflexivity.
Qed.

Lemma stripe_webhook_rejected `{Externals} req now db :
  verified_event req = None ->
  fst (fst (stripe_webhook req now db)) = 400 /\
  snd (stripe_webhook req now db) = db.
Proof.
  unfold verified_event, stripe_webhook. intros Hv.
  destruct (truthy_string (wh_signature req)); [|split; reflexivity].
  rewrite Hv. split; reflexivity.
Qed.

Lemma stripe_webhook_duplicate `{Externals} req event now db :
  verified_event req = Some event ->
  recorded (ev_id event) db ->
  stripe_webhook req now db = ((200, wb_received), db).
Proof.
  intros Hv Hrec. rewrite (stripe_webhook_verified _ _ _ _ Hv).
  unfold recorded in Hrec.
  destruct (existingEvent (ev_id event) db); [reflexivity | contradiction].
Qed.

(** The ledger only grows: a recorded id stays recorded across any
    delivery. *)
Lemma stripe_webhook_keeps_recorded `{Externals} id req now db :
  recorded id db -> recorded id (snd (stripe_webhook req now db)).
Proof.
  intros Hrec.
  destruct (verified_event req) as [event|] eqn:Hv.
  - rewrite (stripe_webhook_verified _ _ _ _ Hv).
    destruct (existingEvent (ev_id event) db); [exact Hrec|].
    pose proof (recorded_after_dispatch id event now db
                  (recorded_store_event_old id event now db Hrec)) as Hd.
    destruct (dispatch event now (store_event event now db)) as [[u|m] db'];
      simpl in *.
    + now apply recorded_mark_processed.
    + now apply recorded_record_error.
  - destruct (stripe_webhook_rejected req now db Hv) as [_ ->]. exact Hrec.
Qed.

Lemma stripe_webhook_records `{Externals} req event now db :
  verified_event req = Some event ->
  recorded (ev_id event) (snd (stripe_webhook req now db)).
Proof.
  intros Hv. rewrite (stripe_webhook_verified _ _ _ _ Hv).
  destruct (existingEvent (ev_id event) db) eqn:Hex.
  - unfold recorded. simpl. rewrite Hex. discriminate.
  - pose proof (recorded_after_dispatch (ev_id event) event now db
                  (recorded_store_event_new event now db)) as Hd.
    destruct (dispatch event now (store_event event now db)) as [[u|m] db'];
      simpl in *.
    + now apply recorded_mark_processed.
    + now apply recorded_record_error.
Qed.

Lemma deliver_all_keeps_recorded `{Externals} id ds db :
  recorded id db -> recorded id (deliver_all ds db).
Proof.
  revert db. induction ds as [|[req now] ds IH]; intros db Hrec; simpl.
  - exact Hrec.
  - apply IH. now apply stripe_webhook_keeps_recorded.
Qed.

(** ** C9: deliveries that fail signature verification *)

(** C9. A delivery whose [stripe-signature] header is missing (or empty), or
    whose signature [constructWebhookEvent] rejects, is answered with status
    400 and leaves the whole store as it was: no business row changes and no
    row is written to [webhook_events]. *)
Theorem C9_unverified_delivery_rejected `{Externals} req now db :
  verified_event req = None ->
  fst (fst (stripe_webhook req now db)) = 400 /\
  snd (stripe_webhook req now db) = db /\
  business_rows (snd (stripe_webhook req now db)) = business_rows db /\
  db_webhook_events (snd (stripe_webhook req now db)) = db_webhook_events db.
Proof.
  intros Hv. destruct (stripe_webhook_rejected req now db Hv) as [H400 Hdb].
  rewrite Hdb. repeat split; assumption || reflexivity.
Qed.

Lemma C9_unverified_delivery_rejected_witness :
  @verified_event reference (forged "body-2") = None /\
  fst (fst (@stripe_webhook reference (forged "body-2") 5000 alice_db)) = 400
  /\ snd (@stripe_webhook reference (forged "body-2") 5000 alice_db)
     = alice_db.
Proof.
  split; [reflexivity|].
  destruct (@C9_unverified_delivery_rejected reference (forged "body-2") 5000
              alice_db eq_refl) as (H400 & Hdb & _).
  split; assumption.
Defined.

(** ** C1: idempotent redelivery *)

(** C1. For a verified delivery of event E: if E's id is already in the
    ledger the endpoint answers 200 [{received: true}] and changes nothing;
    the first application always records the id; hence delivering E twice
    leaves the store, and in particular the subscriptions, invoices and users
    tables, exactly as delivering it once. *)
Theorem C1_redelivery_is_idempotent `{Externals} req event now now' db :
  verified_event req = Some event ->
  (recorded (ev_id event) db ->
   stripe_webhook req now' db = ((200, wb_received), db)) /\
  recorded (ev_id event) (snd (stripe_webhook req now db)) /\
  fst (stripe_webhook req now' (snd (stripe_webhook req now db)))
    = (200, wb_received) /\
  business_rows (deliver_all [(req, now); (req, now')] db) =
  business_rows (deliver_all [(req, now)] db) /\
  deliver_all [(req, now); (req, now')] db = deliver_all [(req, now)] db.
Proof.
  intros Hv.
  pose proof (stripe_webhook_records req event now db Hv) as Hrec.
  pose proof (stripe_webhook_duplicate req event now' _ Hv Hrec) as Hdup.
  split; [apply stripe_webhook_duplicate; assumption|].
  split; [exact Hrec|].
  simpl. rewrite Hdup. simpl. repeat split.
Qed.

Lemma C1_redelivery_is_idempotent_witness :
  @verified_event reference (signed "body-2") = Some evt_paid /\
  @deliver_all reference [(signed "body-2", 5000); (signed "body-2", 6000)]
               alice_db =
  @deliver_all reference [(signed "body-2", 5000)] alice_db.
Proof.
  split; [reflexivity|].
  apply (@C1_redelivery_is_idempotent reference (signed "body-2") evt_paid
           5000 6000 alice_db eq_refl).
Defined.

(** ** C7: an event whose processing failed *)

(** A handler that throws has written nothing. *)
Lemma dispatch_throw_unchanged event now db message db' :
  dispatch event now db = (Throw message, db') -> db' = db.
Proof.
  unfold dispatch, handleCheckoutSessionCompleted, handleSubscriptionUpdated,
    handleSubscriptionDeleted, handleInvoicePaymentSucceeded,
    handleInvoicePaymentFailed, handleInvoiceFinalized, upsert_invoice,
    write_subscriptions.
  run_monad.
  repeat (case_match; simpl; try congruence).
Qed.

(** C7. When a verified delivery of event E is answered 500, the ledger row
    it inserted stays with [processed_at] null, its retry count raised to 1
    and the error message stored, and the business tables are as before the
    delivery.  From then on, whatever other deliveries arrive in between,
    every delivery carrying E's id is answered 200 [{received: true}] by the
    duplicate check and changes nothing: the failed application is never
    completed by a retry. *)
Theorem C7_failed_event_is_never_completed `{Externals}
  req event now db ds req' event' now' :
  verified_event req = Some event ->
  fst (fst (stripe_webhook req now db)) = 500 ->
  verified_event req' = Some event' ->
  ev_id event' = ev_id event ->
  let failed := snd (stripe_webhook req now db) in
  let later := deliver_all ds failed in
  (exists row message,
     existingEvent (ev_id event) failed = Some row /\
     we_processed_at row = None /\
     we_error_message row = Some message /\
     we_retry_count row = 1) /\
  business_rows failed = business_rows db /\
  stripe_webhook req' now' later = ((200, wb_received), later).
Proof.
  intros Hv H500 Hv' Hid failed later.
  assert (Hrec : recorded (ev_id event) failed)
    by (apply stripe_webhook_records; exact Hv).
  split; [|split].
  - subst failed. revert H500.
    rewrite (stripe_webhook_verified _ _ _ _ Hv).
    destruct (existingEvent (ev_id event) db) eqn:Hex; [discriminate|].
    pose proof (dispatch_keeps_ledger event now (store_event event now db))
      as Hledger.
    destruct (dispatch event now (store_event event now db))
      as [[u|message] db1]; simpl; [discriminate|].
    intros _. simpl in Hledger.
    unfold record_error. rewrite existingEvent_update by reflexivity.
    unfold existingEvent at 1. rewrite Hledger.
    unfold store_event. simpl. rewrite queryOne_app.
    unfold existingEvent in Hex. rewrite Hex.
    unfold queryOne. simpl. rewrite String.eqb_refl. simpl.
    rewrite String.eqb_refl. simpl.
    eexists. exists message. repeat split.
  - subst failed. revert H500.
    rewrite (stripe_webhook_verified _ _ _ _ Hv).
    destruct (existingEvent (ev_id event) db); [discriminate|].
    destruct (dispatch event now (store_event event now db))
      as [[u|message] db1] eqn:Hd; simpl; [discriminate|].
    intros _. apply dispatch_throw_unchanged in Hd. subst db1.
    reflexivity.
  - apply (stripe_webhook_duplicate req' event' now' later Hv').
    rewrite Hid. subst later. now apply deliver_all_keeps_recorded.
Qed.

Lemma C7_failed_event_is_never_completed_witness :
  @verified_event reference (signed "body-1") = Some evt_broken_checkout /\
  fst (fst (@stripe_webhook reference (signed "body-1") 5000 alice_db)) = 500
  /\
  @stripe_webhook reference (signed "body-1") 9000
    (@deliver_all reference [(signed "body-2", 7000)]
       (snd (@stripe_webhook reference (signed "body-1") 5000 alice_db))) =
  ((200, wb_received),
   @deliver_all reference [(signed "body-2", 7000)]
     (snd (@stripe_webhook reference (signed "body-1") 5000 alice_db))).
Proof.
  split; [reflexivity|]. split; [reflexivity|].
  apply (@C7_failed_event_is_never_completed reference
           (signed "body-1") evt_broken_checkout 5000 alice_db
           [(signed "body-2", 7000)]
           (signed "body-1") evt_broken_checkout 9000
           eq_refl eq_refl eq_refl eq_refl).
Defined.

(** ** C10: subscription deleted *)

Lemma nth_error_update_where {A : Type} (p : A -> bool) (f : A -> A) rows n :
  nth_error (update_where p f rows) n =
  option_map (fun r => if p r then f r else r) (nth_error rows n).
Proof. unfold update_where. apply nth_error_map. Qed.

(** C10 (as stated) fails: a row canceled at instant 4000 that receives the
    deleted event at instant 5000 does not keep its canceled-at. *)
Lemma C10_canceled_at_is_overwritten :
  subscription_row "sub_1" canceled_db = Some canceled_subscription /\
  s_status canceled_subscription = canceled /\
  s_canceled_at canceled_subscription = Some 4000 /\
  option_map s_canceled_at
    (subscription_row "sub_1"
       (snd (handleSubscriptionDeleted sample_stripe_subscription 5000
               canceled_db)))
  = Some (Some 5000) /\
  option_map s_canceled_at
    (subscription_row "sub_1"
       (snd (handleSubscriptionDeleted sample_stripe_subscription 5000
               canceled_db)))
  <> Some (s_canceled_at canceled_subscription).
Proof. repeat split. discriminate. Qed.

(** C10 (amended). For every row the deleted event targets, the handler
    succeeds, forces the status to [canceled] and stamps canceled-at (and
    updated-at) with the processing time, whether or not the row was canceled
    before; the other columns of the row are kept. *)
Theorem C10_deleted_always_restamps subscription now db n row :
  nth_error (db_subscriptions db) n = Some row ->
  has_subscription_ref (ss_id subscription) row = true ->
  fst (handleSubscriptionDeleted subscription now db) = Ok tt /\
  nth_error
    (db_subscriptions (snd (handleSubscriptionDeleted subscription now db))) n
  = Some (subscription_deleted_row now row) /\
  s_status (subscription_deleted_row now row) = canceled /\
  s_canceled_at (subscription_deleted_row now row) = Some now /\
  s_id (subscription_deleted_row now row) = s_id row /\
  s_user_id (subscription_deleted_row now row) = s_user_id row /\
  s_stripe_subscription_id (subscription_deleted_row now row)
  = s_stripe_subscription_id row.
Proof.
  intros Hn Href. split; [reflexivity|]. split; [|repeat split].
  unfold handleSubscriptionDeleted, execute. simpl.
  rewrite nth_error_update_where, Hn. simpl. now rewrite Href.
Qed.

Lemma C10_deleted_always_restamps_witness :
  nth_error (db_subscriptions canceled_db) 0 = Some canceled_subscription /\
  nth_error
    (db_subscriptions
       (snd (handleSubscriptionDeleted sample_stripe_subscription 5000
               canceled_db))) 0
  = Some (subscription_deleted_row 5000 canceled_subscription).
Proof.
  split; [reflexivity|].
  apply (C10_deleted_always_restamps sample_stripe_subscription 5000
           canceled_db 0 canceled_subscription eq_refl eq_refl).
Defined.

(** ** C2: invoice rows keyed by the provider reference *)

Section Counting.
Context {A : Type}.
Implicit Types (p q : A -> bool) (f : A -> A) (rows : list A).

Lemma count_update_where p q f rows :
  (forall r, p (f r) = p r) ->
  List.length (filter p (update_where q f rows)) =
  List.length (filter p rows).
Proof.
  intros Hp. unfold update_where.
  induction rows as [|r rows IH]; simpl; [reflexivity|].
  assert (Hr : p (if q r then f r else r) = p r)
    by (destruct (q r); [apply Hp | reflexivity]).
  rewrite Hr. destruct (p r); simpl; now rewrite IH.
Qed.

Lemma queryOne_some_count p rows r :
  queryOne p rows = Some r -> (1 <= List.length (filter p rows))%nat.
Proof.
  unfold queryOne. induction rows as [|x rows IH]; simpl; [discriminate|].
  destruct (p x); simpl; [lia | exact IH].
Qed.

Lemma queryOne_none_count p rows :
  queryOne p rows = None -> List.length (filter p rows) = 0%nat.
Proof.
  unfold queryOne. induction rows as [|x rows IH]; simpl; [reflexivity|].
  destruct (p x); simpl; [discriminate | exact IH].
Qed.

Lemma count_app p rows rows' :
  List.length (filter p (rows ++ rows')) =
  (List.length (filter p rows) + List.length (filter p rows'))%nat.
Proof. now rewrite filter_app, length_app. Qed.
End Counting.

(** The three handlers, once the owner is (or is not) resolved. *)
Lemma upsert_invoice_existing row on_conflict db existing :
  invoice_row (i_stripe_invoice_id row) db = Some existing ->
  upsert_invoice row on_conflict db =
  (Ok tt,
   with_invoices
     (update_where (has_invoice_ref (i_stripe_invoice_id row)) on_conflict
                   (db_invoices db)) db).
Proof.
  unfold invoice_row, upsert_invoice, execute. now intros ->.
Qed.

Lemma upsert_invoice_new row on_conflict db :
  invoice_row (i_stripe_invoice_id row) db = None ->
  upsert_invoice row on_conflict db =
  (Ok tt, with_invoices (db_invoices db ++ [row]) (bump_uuid db)).
Proof.
  unfold invoice_row, upsert_invoice, execute. now intros ->.
Qed.

Lemma invoice_handlers_unowned invoice now db :
  owner invoice db = None ->
  handleInvoicePaymentSucceeded invoice now db = (Ok tt, db) /\
  handleInvoicePaymentFailed invoice now db = (Ok tt, db) /\
  handleInvoiceFinalized invoice now db = (Ok tt, db).
Proof.
  unfold owner, handleInvoicePaymentSucceeded, handleInvoicePaymentFailed,
    handleInvoiceFinalized.
  destruct (truthy_string (si_customer invoice)); [|repeat split].
  run_monad. intros ->. repeat split.
Qed.

Lemma succeeded_on_existing invoice now db existing :
  owner invoice db <> None ->
  invoice_row (si_id invoice) db = Some existing ->
  handleInvoicePaymentSucceeded invoice now db =
  (Ok tt,
   with_invoices
     (update_where (has_invoice_ref (si_id invoice))
        (set_invoice_status (si_status invoice) (Some now))
        (db_invoices db)) db).
Proof.
  unfold owner, handleInvoicePaymentSucceeded. intros Howner Hrow.
  destruct (truthy_string (si_customer invoice)); [|contradiction].
  run_monad. destruct (user_by_customer s db); [|contradiction].
  now rewrite (upsert_invoice_existing _ _ _ existing).
Qed.

Lemma failed_on_existing invoice now db existing :
  owner invoice db <> None ->
  invoice_row (si_id invoice) db = Some existing ->
  handleInvoicePaymentFailed invoice now db =
  (Ok tt,
   with_invoices
     (update_where (has_invoice_ref (si_id invoice))
        (fun r => set_invoice_status open (i_paid_at r) r)
        (db_invoices db)) db).
Proof.
  unfold owner, handleInvoicePaymentFailed. intros Howner Hrow.
  destruct (truthy_string (si_customer invoice)); [|contradiction].
  run_monad. destruct (user_by_customer s db); [|contradiction].
  now rewrite (upsert_invoice_existing _ _ _ existing).
Qed.

Lemma finalized_on_existing invoice now db existing :
  invoice_row (si_id invoice) db = Some existing ->
  handleInvoiceFinalized invoice now db = (Ok tt, db).
Proof.
  unfold handleInvoiceFinalized. intros Hrow.
  destruct (truthy_string (si_customer invoice)); [|reflexivity].
  run_monad. destruct (user_by_customer s db); [|reflexivity].
  rewrite (upsert_invoice_existing _ _ _ existing) by exact Hrow.
  rewrite update_where_id. now destruct db.
Qed.

Lemma failed_creates_or_updates invoice now db :
  owner invoice db <> None ->
  (count_invoice_ref (si_id invoice) (db_invoices db) <= 1)%nat ->
  let db' := snd (handleInvoicePaymentFailed invoice now db) in
  db_users db' = db_users db /\
  count_invoice_ref (si_id invoice) (db_invoices db') = 1%nat /\
  exists row, invoice_row (si_id invoice) db' = Some row.
Proof.
  intros Howner Hunique.
  destruct (invoice_row (si_id invoice) db) as [existing|] eqn:Hrow.
  - rewrite (failed_on_existing _ _ _ existing Howner Hrow).
    cbn [snd db_users db_invoices with_invoices].
    split; [reflexivity|]. split.
    + unfold count_invoice_ref in *.
      rewrite count_update_where by reflexivity.
      apply queryOne_some_count in Hrow. lia.
    + unfold invoice_row. cbn [db_invoices with_invoices].
      rewrite queryOne_update_where by reflexivity.
      unfold invoice_row in Hrow. rewrite Hrow. simpl. eauto.
  - unfold owner, handleInvoicePaymentFailed in *.
    destruct (truthy_string (si_customer invoice)); [|contradiction].
    run_monad. destruct (user_by_customer s db); [|contradiction].
    rewrite upsert_invoice_new by exact Hrow.
    cbn [snd db_users db_invoices with_invoices bump_uuid].
    split; [reflexivity|]. split.
    + unfold count_invoice_ref. rewrite count_app.
      unfold invoice_row in Hrow.
      rewrite (queryOne_none_count _ _ Hrow). simpl.
      unfold has_invoice_ref. simpl. now rewrite String.eqb_refl.
    + unfold invoice_row. cbn [db_invoices with_invoices].
      rewrite queryOne_app.
      unfold invoice_row in Hrow. rewrite Hrow.
      unfold queryOne, has_invoice_ref. simpl. rewrite String.eqb_refl.
      eauto.
Qed.

Lemma owner_same_users invoice db db' :
  db_users db' = db_users db -> owner invoice db' = owner invoice db.
Proof.
  unfold owner, user_by_customer. now intros ->.
Qed.

(** C2 (as stated) fails: [in_1] is stored as paid; a finalized event for
    [in_1] reporting [open] finds the owner and the row, and leaves the
    stored status as it was. *)
Lemma C2_finalized_does_not_update :
  invoice_row "in_1" paid_db = Some paid_invoice /\
  owner (sample_invoice open) paid_db = Some alice /\
  snd (handleInvoiceFinalized (sample_invoice open) 6000 paid_db) = paid_db /\
  option_map i_status
    (invoice_row "in_1"
       (snd (handleInvoiceFinalized (sample_invoice open) 6000 paid_db)))
  = Some paid /\
  option_map i_status
    (invoice_row "in_1"
       (snd (handleInvoiceFinalized (sample_invoice open) 6000 paid_db)))
  <> Some (si_status (sample_invoice open)).
Proof. repeat split. discriminate. Qed.

(** C2 (amended). Let X be a provider invoice id stored at most once.
    (i) When a row for X exists, no invoice event for X inserts a row:
    payment_succeeded and payment_failed keep the table's length and
    finalized leaves the store untouched; if the event's customer resolves to
    a user, payment_succeeded sets the row's status to the event's status and
    paid-at to the processing time, and payment_failed sets the status to
    [open] and keeps paid-at; if it does not resolve, the event is dropped.
    (ii) payment_failed for X followed by payment_succeeded for X, both
    attributable to a user, leaves exactly one row for X, with the status of
    the payment_succeeded event. *)
Theorem C2_invoice_events_keep_one_row invoice later now now' db :
  (count_invoice_ref (si_id invoice) (db_invoices db) <= 1)%nat ->
  si_id later = si_id invoice ->
  (forall existing,
     invoice_row (si_id invoice) db = Some existing ->
     let succeeded := snd (handleInvoicePaymentSucceeded invoice now db) in
     let failed := snd (handleInvoicePaymentFailed invoice now db) in
     let finalized := snd (handleInvoiceFinalized invoice now db) in
     List.length (db_invoices succeeded) = List.length (db_invoices db) /\
     List.length (db_invoices failed) = List.length (db_invoices db) /\
     finalized = db /\
     (owner invoice db <> None ->
      invoice_row (si_id invoice) succeeded =
        Some (set_invoice_status (si_status invoice) (Some now) existing) /\
      invoice_row (si_id invoice) failed =
        Some (set_invoice_status open (i_paid_at existing) existing)) /\
     (owner invoice db = None -> succeeded = db /\ failed = db)) /\
  (owner invoice db <> None ->
   owner later db <> None ->
   let both :=
     snd (handleInvoicePaymentSucceeded later now'
            (snd (handleInvoicePaymentFailed invoice now db))) in
   count_invoice_ref (si_id invoice) (db_invoices both) = 1%nat /\
   exists row,
     invoice_row (si_id invoice) both = Some row /\
     i_status row = si_status later /\
     i_paid_at row = Some now').
Proof.
  intros Hunique Hid. split.
  - intros existing Hrow succeeded failed finalized.
    subst succeeded failed finalized.
    rewrite (finalized_on_existing _ _ _ existing Hrow).
    destruct (owner invoice db) as [user|] eqn:Howner.
    + assert (Hsome : owner invoice db <> None) by (rewrite Howner; discriminate).
      rewrite (succeeded_on_existing _ _ _ existing Hsome Hrow).
      rewrite (failed_on_existing _ _ _ existing Hsome Hrow).
      cbn [snd db_invoices with_invoices].
      rewrite !update_where_length.
      repeat split; try (intros; discriminate).
      * unfold invoice_row in *. cbn [db_invoices with_invoices].
        rewrite queryOne_update_where by reflexivity. rewrite Hrow. simpl.
        apply queryOne_some in Hrow. destruct Hrow as [_ ->]. reflexivity.
      * unfold invoice_row in *. cbn [db_invoices with_invoices].
        rewrite queryOne_update_where by reflexivity. rewrite Hrow. simpl.
        apply queryOne_some in Hrow. destruct Hrow as [_ ->]. reflexivity.
    + destruct (invoice_handlers_unowned invoice now db Howner)
        as (-> & -> & _).
      repeat split; intros; congruence.
  - intros Howner Hlater both.
    destruct (failed_creates_or_updates invoice now db Howner Hunique)
      as (Husers & Hcount & row & Hrow).
    set (db1 := snd (handleInvoicePaymentFailed invoice now db)) in *.
    assert (Hlater1 : owner later db1 <> None)
      by (rewrite (owner_same_users later db db1 Husers); exact Hlater).
    rewrite <- Hid in Hrow, Hcount |- *.
    subst both. rewrite (succeeded_on_existing _ _ _ row Hlater1 Hrow).
    cbn [snd db_invoices with_invoices]. split.
    + unfold count_invoice_ref in *.
      now rewrite count_update_where by reflexivity.
    + unfold invoice_row in *. cbn [db_invoices with_invoices].
      rewrite queryOne_update_where by reflexivity. rewrite Hrow. simpl.
      apply queryOne_some in Hrow. destruct Hrow as [_ ->].
      eexists. repeat split.
Qed.

Lemma C2_invoice_events_keep_one_row_witness :
  (count_invoice_ref "in_1" (db_invoices alice_db) <= 1)%nat /\
  count_invoice_ref "in_1"
    (db_invoices
       (snd (handleInvoicePaymentSucceeded (sample_invoice paid) 6000
               (snd (handleInvoicePaymentFailed (sample_invoice open) 5000
                       alice_db))))) = 1%nat.
Proof.
  split; [vm_compute; lia|].
  apply (C2_invoice_events_keep_one_row (sample_invoice open)
           (sample_invoice paid) 5000 6000 alice_db);
    [vm_compute; lia | reflexivity | discriminate | discriminate].
Defined.

(** ** Refresh-token rotation *)

Lemma storedToken_none_existsb hash db :
  storedToken hash db = None ->
  existsb (has_token_hash hash) (db_refresh_tokens db) = false.
Proof.
  unfold storedToken, queryOne.
  induction (db_refresh_tokens db) as [|r rows IH]; simpl; [reflexivity|].
  destruct (has_token_hash hash r); [discriminate | exact IH].
Qed.

(** What a 200 from [POST /auth/refresh] tells about the request and the
    store. *)
Lemma refresh_success `{Externals} req now db body :
  fst (refresh req now db) = (200, body) ->
  exists token decoded stored user,
    truthy_string (refresh_refreshToken req) = Some token /\
    verifyRefreshToken token now = JwtOk decoded /\
    storedToken (sha256_hex token) db = Some stored /\
    rt_revoked_at stored = None /\
    (rt_expires_at stored <? now) = false /\
    active_user_by_id (jwt_userId decoded) db = Some user /\
    body = api_tokens (generateAccessToken (request_user user) now)
                      (generateRefreshToken (u_id user) now)
                      access_expiresIn None /\
    existsb (has_token_hash
               (sha256_hex (generateRefreshToken (u_id user) now)))
            (update_where (fun r => Nat.eqb (rt_id r) (rt_id stored))
                          (revoke now) (db_refresh_tokens db)) = false /\
    snd (refresh req now db) =
    rotated stored (u_id user)
            (sha256_hex (generateRefreshToken (u_id user) now))
            (refresh_ip req) (refresh_user_agent req) now db.
Proof.
  unfold refresh, catch_500.
  destruct (truthy_string (refresh_refreshToken req)) as [token|];
    [|discriminate].
  destruct (verifyRefreshToken token now) as [decoded| |] eqn:Hverify;
    try discriminate.
  run_monad.
  destruct (storedToken (sha256_hex token) db) as [stored|] eqn:Hstored;
    [|discriminate].
  destruct (rt_revoked_at stored) eqn:Hrevoked; [discriminate|].
  destruct (rt_expires_at stored <? now) eqn:Hexpired; [discriminate|].
  simpl.
  destruct (active_user_by_id (jwt_userId decoded) db) as [user|] eqn:Huser;
    [|discriminate].
  unfold insert_refresh_token. simpl.
  destruct (existsb _ _) eqn:Hfresh; [discriminate|].
  simpl. intros Hbody. inversion Hbody; subst body.
  exists token, decoded, stored, user. repeat split; assumption.
Qed.


Lemma storedToken_update hash q f db :
  (forall r, rt_token_hash (f r) = rt_token_hash r) ->
  storedToken hash
    (with_refresh_tokens (update_where q f (db_refresh_tokens db)) db) =
  option_map (fun r => if q r then f r else r) (storedToken hash db).
Proof.
  intros Hf. unfold storedToken. simpl.
  apply queryOne_update_where. intros r. unfold has_token_hash.
  now rewrite Hf.
Qed.

(** The row a hash resolves to after a rotation. *)
Lemma storedToken_rotated hash stored userId hash' ip user_agent now db :
  storedToken hash (rotated stored userId hash' ip user_agent now db) =
  match storedToken hash db with
  | Some r =>
    Some (if Nat.eqb (rt_id r) (rt_id stored) then revoke now r else r)
  | None =>
    if String.eqb hash' hash
    then storedToken hash (rotated stored userId hash' ip user_agent now db)
    else None
  end.
Proof.
  unfold storedToken at 1 3, rotated. simpl. rewrite queryOne_app.
  rewrite queryOne_update_where by reflexivity.
  fold (storedToken hash db).
  destruct (storedToken hash db); simpl; [reflexivity|].
  unfold queryOne, has_token_hash. simpl.
  destruct (String.eqb hash' hash); reflexivity.
Qed.

(** A presented token whose stored row is revoked is refused, and the store
    is left alone. *)
Lemma refresh_refused_when_revoked `{Externals} req now db token stored :
  truthy_string (refresh_refreshToken req) = Some token ->
  storedToken (sha256_hex token) db = Some stored ->
  rt_revoked_at stored <> None ->
  exists message,
    refresh req now db =
    ((401, api_error "INVALID_REFRESH_TOKEN" message), db).
Proof.
  intros Htoken Hstored Hrevoked. unfold refresh, catch_500.
  rewrite Htoken.
  destruct (verifyRefreshToken token now); try (eexists; reflexivity).
  run_monad. rewrite Hstored.
  destruct (rt_revoked_at stored); [|contradiction].
  simpl. eexists; reflexivity.
Qed.



(** ** C3: rotation makes the presented token single-use *)



(** ** C8: the replaced-by link *)

(** After a successful rotation to [T'], the presented token's row is revoked
    and keeps the [replaced_by_token] it had; the row inserted for [T'] is
    the one that stores a reference, and it references the presented row. *)
Lemma refresh_links_new_to_old `{Externals} req now db access T' :
  fst (refresh req now db) = (200, api_tokens access T' access_expiresIn None)
  ->
  exists T stored new,
    truthy_string (refresh_refreshToken req) = Some T /\
    storedToken (sha256_hex T) db = Some stored /\
    storedToken (sha256_hex T) (snd (refresh req now db)) =
      Some (revoke now stored) /\
    rt_replaced_by_token (revoke now stored) = rt_replaced_by_token stored /\
    storedToken (sha256_hex T') (snd (refresh req now db)) = Some new /\
    rt_replaced_by_token new = Some (rt_id stored).
Proof.
  intros Hok.
  destruct (refresh_success req now db _ Hok)
    as (T & decoded & stored & user & Htoken & _ & Hstored & _ & _ & _
        & Hbody & Hfresh & Hdb).
  inversion Hbody; subst access T'. clear Hbody.
  exists T, stored. eexists. rewrite Hdb.
  split; [exact Htoken|]. split; [exact Hstored|]. split.
  { rewrite storedToken_rotated, Hstored. now rewrite Nat.eqb_refl. }
  split; [reflexivity|]. split.
  { unfold storedToken, rotated. simpl. rewrite queryOne_app.
    rewrite (queryOne_none_existsb _ _ Hfresh).
    unfold queryOne, has_token_hash. simpl. rewrite String.eqb_refl.
    reflexivity. }
  reflexivity.
Qed.

(** C8 (the code at a rotation).  Alice's token [token_1] (row 100) is
    rotated into [token_3] (row 101): row 100 is revoked and its
    [replaced_by_token] is still NULL, while row 101 carries
    [replaced_by_token = 100].  The link runs from the new row to the old
    one, not from the revoked row to its successor. *)
Theorem C8_link_is_stored_on_the_new_row :
  fst (@refresh reference (presents token_1) 3000000 one_device_db) =
    (200, api_tokens access_3 token_3 access_expiresIn None) /\
  option_map rt_id (storedToken (@sha256_hex reference token_1) rotated_db)
    = Some 100%nat /\
  option_map rt_revoked_at
    (storedToken (@sha256_hex reference token_1) rotated_db)
    = Some (Some 3000000) /\
  option_map rt_replaced_by_token
    (storedToken (@sha256_hex reference token_1) rotated_db)
    = Some None /\
  option_map rt_id (storedToken (@sha256_hex reference token_3) rotated_db)
    = Some 101%nat /\
  option_map rt_replaced_by_token
    (storedToken (@sha256_hex reference token_3) rotated_db)
    = Some (Some 100%nat).
Proof. repeat split; vm_compute; reflexivity. Qed.

(** ** C5: a password change revokes every refresh token of the user *)

Lemma change_password_success `{Externals} req now db req_user :
  authenticate (cp_authorization req) now db = inr req_user ->
  fst (fst (change_password req now db)) = 200 ->
  exists users',
    snd (change_password req now db) =
    with_refresh_tokens
      (update_where
         (fun r => Nat.eqb (rt_user_id r) (ru_id req_user)
                   && is_null (rt_revoked_at r))%bool
         (revoke now) (db_refresh_tokens db))
      (with_users users' db).
Proof.
  intros Hauth. unfold change_password, catch_500. rewrite Hauth.
  run_monad.
  destruct (active_user_by_id (ru_id req_user) db) as [user|];
    [|discriminate].
  destruct (bcrypt_compare _ _); simpl; [|discriminate].
  intros _. eexists. reflexivity.
Qed.

(** C5. After a successful change-password by a user, every refresh token
    whose stored row belongs to that user has its row revoked and is refused
    with 401 INVALID_REFRESH_TOKEN at any later instant, the refusal changing
    nothing.  (Two devices: instantiate the token twice.) *)
Theorem C5_password_change_revokes_every_token `{Externals}
  req now db req_user T stored replay now' :
  authenticate (cp_authorization req) now db = inr req_user ->
  fst (fst (change_password req now db)) = 200 ->
  storedToken (sha256_hex T) db = Some stored ->
  rt_user_id stored = ru_id req_user ->
  truthy_string (refresh_refreshToken replay) = Some T ->
  (exists stored',
     storedToken (sha256_hex T) (snd (change_password req now db)) =
       Some stored' /\
     rt_id stored' = rt_id stored /\
     rt_revoked_at stored' <> None) /\
  (exists message,
     refresh replay now' (snd (change_password req now db)) =
     ((401, api_error "INVALID_REFRESH_TOKEN" message),
      snd (change_password req now db))).
Proof.
  intros Hauth Hok Hstored Howner Hreplay.
  destruct (change_password_success req now db req_user Hauth Hok)
    as [users' ->].
  set (revoked :=
         if (Nat.eqb (rt_user_id stored) (ru_id req_user)
             && is_null (rt_revoked_at stored))%bool
         then revoke now stored else stored).
  assert (Hrow : storedToken (sha256_hex T)
                   (with_refresh_tokens
                      (update_where
                         (fun r => Nat.eqb (rt_user_id r) (ru_id req_user)
                                   && is_null (rt_revoked_at r))%bool
                         (revoke now) (db_refresh_tokens db))
                      (with_users users' db)) = Some revoked).
  { change (db_refresh_tokens db)
      with (db_refresh_tokens (with_users users' db)).
    rewrite storedToken_update by reflexivity.
    change (storedToken (sha256_hex T) (with_users users' db))
      with (storedToken (sha256_hex T) db).
    rewrite Hstored. reflexivity. }
  assert (Hrevoked : rt_revoked_at revoked <> None).
  { subst revoked. rewrite Howner, Nat.eqb_refl. simpl.
    destruct (rt_revoked_at stored) eqn:Hr; simpl;
      [rewrite Hr|]; discriminate. }
  split.
  - exists revoked. split; [exact Hrow|]. split; [|exact Hrevoked].
    subst revoked. now destruct (_ && _)%bool.
  - eapply refresh_refused_when_revoked; eassumption.
Qed.

Lemma C5_password_change_revokes_every_token_witness :
  fst (fst (@change_password reference alice_changes_password 5000000
              two_devices_db)) = 200 /\
  (exists message,
     @refresh reference (presents token_1) 6000000
       (snd (@change_password reference alice_changes_password 5000000
               two_devices_db)) =
     ((401, api_error "INVALID_REFRESH_TOKEN" message),
      snd (@change_password reference alice_changes_password 5000000
             two_devices_db))) /\
  (exists message,
     @refresh reference (presents token_2) 6000000
       (snd (@change_password reference alice_changes_password 5000000
               two_devices_db)) =
     ((401, api_error "INVALID_REFRESH_TOKEN" message),
      snd (@change_password reference alice_changes_password 5000000
             two_devices_db))).
Proof.
  split; [vm_compute; reflexivity|]. split.
  - eapply (@C5_password_change_revokes_every_token reference
              alice_changes_password 5000000 two_devices_db
              alice_request_user token_1);
      vm_compute; reflexivity.
  - eapply (@C5_password_change_revokes_every_token reference
              alice_changes_password 5000000 two_devices_db
              alice_request_user token_2);
      vm_compute; reflexivity.
Defined.

(** ** C4: lockout *)

Lemma active_user_by_email_update email q f db :
  (forall u, u_email (f u) = u_email u) ->
  (forall u, u_deleted_at (f u) = u_deleted_at u) ->
  active_user_by_email email
    (with_users (update_where q f (db_users db)) db) =
  option_map (fun u => if q u then f u else u)
             (active_user_by_email email db).
Proof.
  intros Hemail Hdeleted. unfold active_user_by_email. simpl.
  apply queryOne_update_where. intros u. now rewrite Hemail, Hdeleted.
Qed.

Lemma login_locked `{Externals} req now db user :
  active_user_by_email (toLowerCase (login_email req)) db = Some user ->
  is_locked (Some user) now = true ->
  login req now db =
  ((423, api_error "ACCOUNT_LOCKED"
           "Account is temporarily locked. Please try again later."), db).
Proof.
  intros Huser Hlocked. unfold login, catch_500. run_monad.
  rewrite Huser, Hlocked. reflexivity.
Qed.

Lemma login_wrong_password `{Externals} req now db user :
  active_user_by_email (toLowerCase (login_email req)) db = Some user ->
  is_locked (Some user) now = false ->
  bcrypt_compare (login_password req) (u_password_hash user) = false ->
  login req now db =
  ((401, api_error "INVALID_CREDENTIALS" "Invalid email or password"),
   with_users
     (update_where (has_user_id (u_id user))
        (fun u =>
           touch_user now
             (set_login_state
                (or_zero (u_failed_login_attempts user) + 1)
                (if lockout_threshold <=?
                    or_zero (u_failed_login_attempts user) + 1
                 then Some (now + lockout_ms) else None)
                (u_last_login_at u) u))
        (db_users db)) db).
Proof.
  intros Huser Hlocked Hwrong. unfold login, catch_500. run_monad.
  rewrite Huser, Hlocked, Hwrong. reflexivity.
Qed.

Lemma login_right_password `{Externals} req now db user :
  active_user_by_email (toLowerCase (login_email req)) db = Some user ->
  is_locked (Some user) now = false ->
  bcrypt_compare (login_password req) (u_password_hash user) = true ->
  unused_hash (sha256_hex (generateRefreshToken (u_id user) now)) db ->
  fst (login req now db) =
    (200, api_tokens (generateAccessToken (request_user user) now)
                     (generateRefreshToken (u_id user) now)
                     access_expiresIn (Some (user_view user))) /\
  db_users (snd (login req now db)) =
    update_where (has_user_id (u_id user))
      (fun u => touch_user now (set_login_state 0 None (Some now) u))
      (db_users db).
Proof.
  intros Huser Hlocked Hright Hunused. unfold login, catch_500. run_monad.
  rewrite Huser, Hlocked, Hright. simpl.
  unfold insert_refresh_token. simpl.
  rewrite (storedToken_none_existsb _ _ Hunused). split; reflexivity.
Qed.

Lemma has_user_id_self user : has_user_id (u_id user) user = true.
Proof. apply Nat.eqb_refl. Qed.

(** C4. A user with 4 failed attempts who is not locked presents a wrong
    password at [now]: the answer is 401 INVALID_CREDENTIALS, the counter
    becomes 5 and [locked_until] becomes [now] + 30 minutes.  At any [now2]
    before that instant the correct password is answered 423 ACCOUNT_LOCKED
    and nothing changes.  At any [now3] from that instant on, the correct
    password is answered 200 (the refresh token minted at [now3] must not be
    stored already), the counter is 0 and [locked_until] is NULL. *)
Theorem C4_lockout_after_fifth_failure `{Externals}
  wrong right now now2 now3 db user :
  active_user_by_email (toLowerCase (login_email wrong)) db = Some user ->
  login_email right = login_email wrong ->
  u_failed_login_attempts user = Some 4 ->
  is_locked (Some user) now = false ->
  bcrypt_compare (login_password wrong) (u_password_hash user) = false ->
  bcrypt_compare (login_password right) (u_password_hash user) = true ->
  now2 < now + 30 * 60 * 1000 ->
  now + 30 * 60 * 1000 <= now3 ->
  unused_hash (sha256_hex (generateRefreshToken (u_id user) now3))
              (snd (login wrong now db)) ->
  let email := toLowerCase (login_email wrong) in
  let locked := snd (login wrong now db) in
  let unlocked := snd (login right now3 locked) in
  fst (login wrong now db) =
    (401, api_error "INVALID_CREDENTIALS" "Invalid email or password") /\
  option_map u_failed_login_attempts (active_user_by_email email locked)
    = Some (Some 5) /\
  option_map u_locked_until (active_user_by_email email locked)
    = Some (Some (now + 30 * 60 * 1000)) /\
  login right now2 locked =
    ((423, api_error "ACCOUNT_LOCKED"
             "Account is temporarily locked. Please try again later."),
     locked) /\
  fst (fst (login right now3 locked)) = 200 /\
  option_map u_failed_login_attempts (active_user_by_email email unlocked)
    = Some (Some 0) /\
  option_map u_locked_until (active_user_by_email email unlocked)
    = Some None.
Proof.
  intros Huser Hemail Hfour Hfree Hwrong Hright Hbefore Hafter Hunused
         email locked unlocked.
  pose proof (login_wrong_password wrong now db user Huser Hfree Hwrong)
    as Hfifth.
  rewrite Hfour in Hfifth. simpl in Hfifth.
  set (user5 := touch_user now
                  (set_login_state 5 (Some (now + lockout_ms))
                                   (u_last_login_at user) user)).
  assert (Hlocked : active_user_by_email email locked = Some user5).
  { subst locked. rewrite Hfifth. cbn [snd].
    rewrite active_user_by_email_update by reflexivity.
    fold email in Huser. rewrite Huser. cbn [option_map].
    now rewrite (has_user_id_self user). }
  assert (Hemail' : toLowerCase (login_email right) = email)
    by (now rewrite Hemail).
  split; [now rewrite Hfifth|].
  split; [now rewrite Hlocked|].
  split; [now rewrite Hlocked|].
  split.
  { apply (login_locked right now2 locked user5);
      [now rewrite Hemail'|].
    simpl. apply Z.ltb_lt. exact Hbefore. }
  assert (Hopen : is_locked (Some user5) now3 = false)
    by (simpl; apply Z.ltb_ge; exact Hafter).
  destruct (login_right_password right now3 locked user5)
    as [Hresponse Husers];
    [now rewrite Hemail' | exact Hopen | exact Hright | exact Hunused|].
  split; [now rewrite Hresponse|].
  assert (Hunlocked :
            active_user_by_email email unlocked =
            Some (touch_user now3 (set_login_state 0 None (Some now3) user5))).
  { unfold active_user_by_email. subst unlocked. rewrite Husers.
    rewrite queryOne_update_where by reflexivity.
    fold (active_user_by_email email locked). rewrite Hlocked.
    cbn [option_map]. now rewrite (has_user_id_self user5). }
  split; now rewrite Hunlocked.
Qed.

Lemma C4_lockout_after_fifth_failure_witness :
  fst (@login reference (alice_login "guess") 1000000 four_failures_db) =
    (401, api_error "INVALID_CREDENTIALS" "Invalid email or password") /\
  @login reference (alice_login "Passw0rd") 2799999
    (snd (@login reference (alice_login "guess") 1000000 four_failures_db)) =
    ((423, api_error "ACCOUNT_LOCKED"
             "Account is temporarily locked. Please try again later."),
     snd (@login reference (alice_login "guess") 1000000 four_failures_db))
  /\
  fst (fst (@login reference (alice_login "Passw0rd") 2800000
              (snd (@login reference (alice_login "guess") 1000000
                      four_failures_db)))) = 200.
Proof.
  destruct (@C4_lockout_after_fifth_failure reference
              (alice_login "guess") (alice_login "Passw0rd")
              1000000 2799999 2800000 four_failures_db
              alice_after_four_failures)
    as (H401 & _ & _ & H423 & H200 & _);
    try (vm_compute; reflexivity); try lia.
  repeat split; assumption.
Defined.

(** ** C6: soft-deleted accounts *)

Lemma NoDup_map_eq {A B : Type} (f : A -> B) (l : list A) x y :
  NoDup (map f l) -> In x l -> In y l -> f x = f y -> x = y.
Proof.
  induction l as [|a l IH]; simpl; [contradiction|].
  intros Hnodup Hx Hy Hf. inversion Hnodup as [|? ? Hnotin Hrest]; subst.
  destruct Hx as [<-|Hx], Hy as [<-|Hy].
  - reflexivity.
  - exfalso. apply Hnotin. rewrite Hf. now apply in_map.
  - exfalso. apply Hnotin. rewrite <- Hf. now apply in_map.
  - now apply IH.
Qed.

Lemma queryOne_map_none {A : Type} (p : A -> bool) (g : A -> A) rows :
  (forall r, In r rows -> p (g r) = false) ->
  queryOne p (map g rows) = None.
Proof.
  unfold queryOne. induction rows as [|r rows IH]; simpl; [reflexivity|].
  intros Hall. rewrite (Hall r) by now left.
  apply IH. intros r' Hr'. apply Hall. now right.
Qed.

Lemma authenticate_accepts `{Externals} authorization now db req_user :
  authenticate authorization now db = inr req_user ->
  exists user,
    In user (db_users db) /\
    u_id user = ru_id req_user /\
    u_email user = ru_email req_user /\
    u_deleted_at user = None.
Proof.
  unfold authenticate.
  destruct (truthy_string authorization) as [authHeader|]; [|discriminate].
  destruct (String.prefix "Bearer " authHeader); simpl; [|discriminate].
  destruct (jwt_verify _ _ now) as [decoded| |]; try discriminate.
  destruct (queryOne _ (db_users db)) as [user|] eqn:Hq; [|discriminate].
  destruct (u_deleted_at user) eqn:Hdeleted; [discriminate|].
  intros Hinr. inversion Hinr; subst req_user. simpl.
  apply queryOne_some in Hq. destruct Hq as [Hin _].
  exists user. repeat split; assumption.
Qed.

Lemma authenticate_verified `{Externals} authorization now db decoded :
  bearer_payload authorization now = Some decoded ->
  authenticate authorization now db =
  match queryOne (has_user_id (jwt_userId decoded)) (db_users db) with
  | None => inl (401, api_error "UNAUTHORIZED" "User not found or deactivated")
  | Some user =>
    match u_deleted_at user with
    | Some _ =>
      inl (401, api_error "UNAUTHORIZED" "User not found or deactivated")
    | None => inr (request_user user)
    end
  end.
Proof.
  unfold bearer_payload, authenticate.
  destruct (truthy_string authorization) as [authHeader|]; [|discriminate].
  destruct (String.prefix "Bearer " authHeader); simpl; [|discriminate].
  destruct (jwt_verify _ _ now) as [payload| |]; try discriminate.
  intros Hsome. inversion Hsome; subst payload. reflexivity.
Qed.

Lemma delete_account_success `{Externals} req now db req_user :
  authenticate (del_authorization req) now db = inr req_user ->
  fst (fst (delete_account req now db)) = 200 ->
  db_users (snd (delete_account req now db)) =
  update_where (has_user_id (ru_id req_user))
    (fun u => touch_user now (soft_delete now u)) (db_users db).
Proof.
  intros Hauth. unfold delete_account, catch_500. rewrite Hauth.
  destruct (truthy_string (del_password req)); [|discriminate].
  run_monad.
  destruct (active_user_by_id (ru_id req_user) db); [|discriminate].
  destruct (bcrypt_compare _ _); simpl; [|discriminate].
  reflexivity.
Qed.

Lemma login_unknown_email `{Externals} req now db :
  active_user_by_email (toLowerCase (login_email req)) db = None ->
  login req now db =
  ((401, api_error "INVALID_CREDENTIALS" "Invalid email or password"), db).
Proof.
  intros Hnone. unfold login, catch_500. run_monad.
  now rewrite Hnone.
Qed.

(** C6. After a successful [DELETE /profile] by a user (emails being unique
    among the users): a login with the account's email is answered 401
    INVALID_CREDENTIALS, whatever the password, because the active-user
    lookup finds no row; and a request whose bearer token still passes
    [jwt.verify] and names the deleted user is answered 401 UNAUTHORIZED by
    the user-exists check of [authenticate]. *)
Theorem C6_deleted_account_cannot_authenticate `{Externals}
  req now db req_user attempt now2 authorization now3 decoded :
  users_email_unique db ->
  authenticate (del_authorization req) now db = inr req_user ->
  fst (fst (delete_account req now db)) = 200 ->
  toLowerCase (login_email attempt) = ru_email req_user ->
  bearer_payload authorization now3 = Some decoded ->
  jwt_userId decoded = ru_id req_user ->
  let deleted := snd (delete_account req now db) in
  active_user_by_email (ru_email req_user) deleted = None /\
  login attempt now2 deleted =
    ((401, api_error "INVALID_CREDENTIALS" "Invalid email or password"),
     deleted) /\
  authenticate authorization now3 deleted =
    inl (401, api_error "UNAUTHORIZED" "User not found or deactivated").
Proof.
  intros Hunique Hauth Hok Hemail Hbearer Hsame deleted.
  pose proof (delete_account_success req now db req_user Hauth Hok)
    as Husers.
  fold deleted in Husers.
  destruct (authenticate_accepts _ _ _ _ Hauth)
    as (user & Hin & Hid & Huemail & _).
  assert (Hnone : active_user_by_email (ru_email req_user) deleted = None).
  { unfold active_user_by_email. rewrite Husers. unfold update_where.
    apply queryOne_map_none. intros r Hr.
    destruct (has_user_id (ru_id req_user) r) eqn:Hmatch.
    - simpl. apply andb_false_r.
    - apply andb_false_iff. left. apply String.eqb_neq. intros Heq.
      assert (r = user)
        by (apply (NoDup_map_eq u_email (db_users db)); auto; congruence).
      subst r. unfold has_user_id in Hmatch.
      rewrite Hid, Nat.eqb_refl in Hmatch. discriminate. }
  split; [exact Hnone|]. split.
  - apply login_unknown_email. now rewrite Hemail.
  - rewrite (authenticate_verified _ _ _ _ Hbearer), Hsame, Husers.
    rewrite queryOne_update_where by reflexivity.
    destruct (queryOne (has_user_id (ru_id req_user)) (db_users db))
      as [found|] eqn:Hfound; [|reflexivity].
    apply queryOne_some in Hfound. destruct Hfound as [_ Hmatch].
    simpl. rewrite Hmatch. reflexivity.
Qed.

Lemma C6_deleted_account_cannot_authenticate_witness :
  fst (fst (@delete_account reference alice_deletes_account 5000000
              two_devices_db)) = 200 /\
  @login reference (alice_login "Passw0rd") 6000000
    (snd (@delete_account reference alice_deletes_account 5000000
            two_devices_db)) =
    ((401, api_error "INVALID_CREDENTIALS" "Invalid email or password"),
     snd (@delete_account reference alice_deletes_account 5000000
            two_devices_db)) /\
  @authenticate reference (Some alice_bearer) 6000000
    (snd (@delete_account reference alice_deletes_account 5000000
            two_devices_db)) =
    inl (401, api_error "UNAUTHORIZED" "User not found or deactivated").
Proof.
  split; [vm_compute; reflexivity|].
  apply (@C6_deleted_account_cannot_authenticate reference
           alice_deletes_account 5000000 two_devices_db alice_request_user
           (alice_login "Passw0rd") 6000000 (Some alice_bearer) 6000000
           alice_payload);
    try (vm_compute; reflexivity).
  unfold users_email_unique. simpl. repeat constructor. simpl. tauto.
Defined.

(** * Further properties of the webhook endpoint *)

Ltac unfold_handlers :=
  unfold dispatch, handleCheckoutSessionCompleted, handleSubscriptionUpdated,
    handleSubscriptionDeleted, handleInvoicePaymentSucceeded,
    handleInvoicePaymentFailed, handleInvoiceFinalized, upsert_invoice,
    write_subscriptions.

Lemma dispatch_keeps_accounts event now db :
  db_users (snd (dispatch event now db)) = db_users db /\
  db_refresh_tokens (snd (dispatch event now db)) = db_refresh_tokens db.
Proof.
  unfold_handlers. run_monad.
  repeat (case_match; simpl; try (split; reflexivity)).
Qed.

(** What a delivery leaves of the store, for a function of the store that
    neither the ledger statements nor the handlers change. *)
Lemma stripe_webhook_frame `{Externals} {A : Type} (view : DB -> A)
  req now db :
  (forall rows d, view (with_webhook_events rows d) = view d) ->
  (forall d, view (bump_uuid d) = view d) ->
  (forall event t d, view (snd (dispatch event t d)) = view d) ->
  view (snd (stripe_webhook req now db)) = view db.
Proof.
  intros Hledger Hbump Hdispatch.
  destruct (verified_event req) as [event|] eqn:Hv.
  - rewrite (stripe_webhook_verified _ _ _ _ Hv).
    destruct (existingEvent (ev_id event) db); [reflexivity|].
    pose proof (Hdispatch event now (store_event event now db)) as Hd.
    unfold store_event in Hd at 2. rewrite Hledger, Hbump in Hd.
    destruct (dispatch event now (store_event event now db))
      as [[u|message] db']; simpl in *; unfold mark_processed, record_error;
      now rewrite Hledger.
  - now destruct (stripe_webhook_rejected req now db Hv) as [_ ->].
Qed.

(** X1. No delivery, whatever it carries, changes the users table or the
    refresh-token table; so no run of deliveries does. *)
Theorem webhooks_never_touch_accounts `{Externals} ds db :
  db_users (deliver_all ds db) = db_users db /\
  db_refresh_tokens (deliver_all ds db) = db_refresh_tokens db.
Proof.
  revert db. induction ds as [|[req now] ds IH]; intros db; simpl.
  - split; reflexivity.
  - destruct (IH (snd (stripe_webhook req now db))) as [-> ->]. split.
    + apply (stripe_webhook_frame db_users); try reflexivity.
      intros. apply dispatch_keeps_accounts.
    + apply (stripe_webhook_frame db_refresh_tokens); try reflexivity.
      intros. apply dispatch_keeps_accounts.
Qed.

Lemma length_app_one {A : Type} (rows : list A) (r : A) :
  List.length (rows ++ [r]) = S (List.length rows).
Proof. rewrite length_app. simpl. lia. Qed.

Lemma dispatch_never_removes event now db :
  (List.length (db_subscriptions db)
   <= List.length (db_subscriptions (snd (dispatch event now db))))%nat /\
  (List.length (db_invoices db)
   <= List.length (db_invoices (snd (dispatch event now db))))%nat.
Proof.
  unfold_handlers. run_monad.
  repeat (case_match; simpl;
          rewrite ?update_where_length, ?length_app_one;
          try (split; lia)).
Qed.

(** X2. A delivery never removes a row: the subscriptions, invoices and
    ledger tables have at least as many rows after any run of deliveries as
    before. *)
Theorem webhooks_never_remove_rows `{Externals} ds db :
  (List.length (db_subscriptions db)
   <= List.length (db_subscriptions (deliver_all ds db)))%nat /\
  (List.length (db_invoices db)
   <= List.length (db_invoices (deliver_all ds db)))%nat /\
  (List.length (db_webhook_events db)
   <= List.length (db_webhook_events (deliver_all ds db)))%nat.
Proof.
  revert db. induction ds as [|[req now] ds IH]; intros db; simpl.
  - repeat split; lia.
  - destruct (IH (snd (stripe_webhook req now db))) as (Hs & Hi & Hl).
    assert (Hstep :
      (List.length (db_subscriptions db)
       <= List.length (db_subscriptions (snd (stripe_webhook req now db))))%nat
      /\
      (List.length (db_invoices db)
       <= List.length (db_invoices (snd (stripe_webhook req now db))))%nat
      /\
      (List.length (db_webhook_events db)
       <= List.length
            (db_webhook_events (snd (stripe_webhook req now db))))%nat).
    { destruct (verified_event req) as [event|] eqn:Hv.
      - rewrite (stripe_webhook_verified _ _ _ _ Hv).
        destruct (existingEvent (ev_id event) db);
          [simpl; repeat split; lia|].
        pose proof (dispatch_never_removes event now
                      (store_event event now db)) as [Hs' Hi'].
        pose proof (dispatch_keeps_ledger event now
                      (store_event event now db)) as Hl'.
        destruct (dispatch event now (store_event event now db))
          as [[u|message] db']; simpl in *;
          rewrite update_where_length, Hl', length_app_one;
          repeat split; lia.
      - destruct (stripe_webhook_rejected req now db Hv) as [_ ->].
        repeat split; lia. }
    destruct Hstep as (Hs' & Hi' & Hl'). repeat split; lia.
Qed.

(** ** Keys stay unique *)

Lemma queryOne_none_not_in {A : Type} (key : A -> string) (k : string) rows :
  queryOne (fun r => String.eqb (key r) k) rows = None ->
  ~ In k (map key rows).
Proof.
  unfold queryOne. induction rows as [|r rows IH]; simpl; [tauto|].
  destruct (String.eqb (key r) k) eqn:Hk; [discriminate|].
  intros Hnone [Heq|Hin]; [|now apply IH].
  apply String.eqb_neq in Hk. contradiction.
Qed.

Lemma NoDup_app_one {A : Type} (l : list A) (x : A) :
  NoDup l -> ~ In x l -> NoDup (l ++ [x]).
Proof.
  intros Hl Hx. induction l as [|a l IH]; simpl.
  - constructor; [tauto | constructor].
  - inversion Hl as [|? ? Ha Hrest]; subst. constructor.
    + rewrite in_app_iff. simpl. intros [Hin|[Heq|[]]]; [contradiction|].
      apply Hx. now left.
    + apply IH; [exact Hrest|]. intros Hin. apply Hx. now right.
Qed.

Lemma map_update_where {A B : Type} (key : A -> B) (p : A -> bool)
  (f : A -> A) rows :
  (forall r, key (f r) = key r) ->
  map key (update_where p f rows) = map key rows.
Proof.
  intros Hkey. unfold update_where. rewrite map_map. apply map_ext.
  intros r. destruct (p r); [apply Hkey | reflexivity].
Qed.

Lemma upsert_invoice_keeps_unique row on_conflict db :
  (forall r, i_stripe_invoice_id (on_conflict r) = i_stripe_invoice_id r) ->
  NoDup (invoice_refs db) ->
  NoDup (invoice_refs (snd (upsert_invoice row on_conflict db))).
Proof.
  intros Hkey Hunique. unfold upsert_invoice, execute, invoice_refs. simpl.
  destruct (queryOne (has_invoice_ref (i_stripe_invoice_id row))
                     (db_invoices db)) eqn:Hq; simpl.
  - now rewrite map_update_where.
  - rewrite map_app. simpl. apply NoDup_app_one; [exact Hunique|].
    now apply (queryOne_none_not_in i_stripe_invoice_id).
Qed.

Lemma dispatch_keeps_invoice_refs_unique event now db :
  NoDup (invoice_refs db) ->
  NoDup (invoice_refs (snd (dispatch event now db))).
Proof.
  intros Hunique.
  unfold dispatch, handleCheckoutSessionCompleted, handleSubscriptionUpdated,
    handleSubscriptionDeleted, handleInvoicePaymentSucceeded,
    handleInvoicePaymentFailed, handleInvoiceFinalized, write_subscriptions.
  unfold bind, select, execute, ret, throw. cbn -[upsert_invoice].
  repeat (case_match; cbn -[upsert_invoice]; try exact Hunique);
    apply upsert_invoice_keeps_unique; try exact Hunique; reflexivity.
Qed.

Lemma existingEvent_none_not_in id db :
  existingEvent id db = None -> ~ In id (ledger_ids db).
Proof.
  unfold existingEvent, ledger_ids.
  apply (queryOne_none_not_in we_stripe_event_id).
Qed.

Lemma stripe_webhook_keeps_keys_unique `{Externals} req now db :
  NoDup (ledger_ids db) /\ NoDup (invoice_refs db) ->
  NoDup (ledger_ids (snd (stripe_webhook req now db))) /\
  NoDup (invoice_refs (snd (stripe_webhook req now db))).
Proof.
  intros [Hledger Hinvoices].
  destruct (verified_event req) as [event|] eqn:Hv.
  - rewrite (stripe_webhook_verified _ _ _ _ Hv).
    destruct (existingEvent (ev_id event) db) eqn:Hex; [now split|].
    pose proof (dispatch_keeps_ledger event now (store_event event now db))
      as Hl.
    pose proof (dispatch_keeps_invoice_refs_unique event now
                  (store_event event now db) Hinvoices) as Hi.
    assert (Hnew : NoDup (map we_stripe_event_id
                            (db_webhook_events (store_event event now db)))).
    { unfold store_event. simpl. rewrite map_app. simpl.
      apply NoDup_app_one; [exact Hledger|].
      now apply existingEvent_none_not_in. }
    destruct (dispatch event now (store_event event now db))
      as [[u|message] db']; simpl in *; split; try exact Hi;
      unfold ledger_ids; simpl;
      rewrite map_update_where by reflexivity; now rewrite Hl.
  - now destruct (stripe_webhook_rejected req now db Hv) as [_ ->].
Qed.

(** X3. The endpoint keeps its keys unique by itself: if no provider event id
    occurs twice in the ledger and no provider invoice reference occurs twice
    in the invoices table, the same holds after any run of deliveries
    (duplicates, reorderings and failed events included). *)
Theorem webhooks_keep_keys_unique `{Externals} ds db :
  NoDup (ledger_ids db) ->
  NoDup (invoice_refs db) ->
  NoDup (ledger_ids (deliver_all ds db)) /\
  NoDup (invoice_refs (deliver_all ds db)).
Proof.
  revert db. induction ds as [|[req now] ds IH]; intros db Hl Hi; simpl.
  - now split.
  - destruct (stripe_webhook_keeps_keys_unique req now db (conj Hl Hi)).
    now apply IH.
Qed.

Lemma webhooks_keep_keys_unique_witness :
  NoDup (ledger_ids alice_db) /\
  NoDup (invoice_refs alice_db) /\
  NoDup (ledger_ids
           (@deliver_all reference
              [(signed "body-2", 5000); (signed "body-1", 6000);
               (signed "body-2", 7000)] alice_db)) /\
  NoDup (invoice_refs
           (@deliver_all reference
              [(signed "body-2", 5000); (signed "body-1", 6000);
               (signed "body-2", 7000)] alice_db)).
Proof.
  split; [constructor|]. split; [constructor|].
  apply (@webhooks_keep_keys_unique reference); constructor.
Defined.

(** ** The ledger row of a processed event *)

Lemma stripe_webhook_processed `{Externals} req event now db db' :
  verified_event req = Some event ->
  existingEvent (ev_id event) db = None ->
  dispatch event now (store_event event now db) = (Ok tt, db') ->
  stripe_webhook req now db =
    ((200, wb_received), mark_processed (ev_id event) now db') /\
  existingEvent (ev_id event) (mark_processed (ev_id event) now db') =
    Some {| we_id := db_next_uuid db;
            we_stripe_event_id := ev_id event;
            we_event_type := event_type event;
            we_payload := event;
            we_processed_at := Some now;
            we_error_message := None;
            we_retry_count := 0;
            we_created_at := now |}.
Proof.
  intros Hv Hex Hd. rewrite (stripe_webhook_verified _ _ _ _ Hv), Hex, Hd.
  split; [reflexivity|].
  pose proof (dispatch_keeps_ledger event now (store_event event now db))
    as Hledger.
  rewrite Hd in Hledger. simpl in Hledger.
  unfold mark_processed. rewrite existingEvent_update by reflexivity.
  unfold existingEvent at 1. rewrite Hledger. rewrite queryOne_app.
  unfold existingEvent in Hex. rewrite Hex.
  unfold queryOne. simpl. rewrite String.eqb_refl. simpl.
  now rewrite String.eqb_refl.
Qed.

(** X4. A verified event that is not yet in the ledger and whose handler
    returns normally is answered 200 [{received: true}], and its ledger row
    then carries the event's type and payload, [processed_at] equal to the
    processing time, retry count 0 and no error message. *)
Theorem handled_event_is_marked_processed `{Externals} req event now db :
  verified_event req = Some event ->
  existingEvent (ev_id event) db = None ->
  fst (dispatch event now (store_event event now db)) = Ok tt ->
  fst (stripe_webhook req now db) = (200, wb_received) /\
  existingEvent (ev_id event) (snd (stripe_webhook req now db)) =
    Some {| we_id := db_next_uuid db;
            we_stripe_event_id := ev_id event;
            we_event_type := event_type event;
            we_payload := event;
            we_processed_at := Some now;
            we_error_message := None;
            we_retry_count := 0;
            we_created_at := now |}.
Proof.
  intros Hv Hex Hok.
  destruct (dispatch event now (store_event event now db)) as [r db'] eqn:Hd.
  simpl in Hok. subst r.
  destruct (stripe_webhook_processed req event now db db' Hv Hex Hd)
    as [-> Hrow].
  split; [reflexivity | exact Hrow].
Qed.

Lemma handled_event_is_marked_processed_witness :
  @verified_event reference (signed "body-2") = Some evt_paid /\
  fst (@stripe_webhook reference (signed "body-2") 5000 alice_db) =
    (200, wb_received) /\
  option_map we_processed_at
    (existingEvent "evt_2"
       (snd (@stripe_webhook reference (signed "body-2") 5000 alice_db))) =
    Some (Some 5000).
Proof.
  split; [reflexivity|].
  destruct (@handled_event_is_marked_processed reference (signed "body-2")
              evt_paid 5000 alice_db eq_refl eq_refl eq_refl) as [H200 Hrow].
  split; [exact H200|]. change (ev_id evt_paid) with "evt_2" in Hrow.
  now rewrite Hrow.
Defined.

(** X5. An event whose type the switch does not handle is not an error: it
    is answered 200 [{received: true}], recorded in the ledger as processed,
    and leaves the subscriptions, invoices and users tables as they were. *)
Theorem unhandled_event_type_is_acknowledged `{Externals}
  req event type now db :
  verified_event req = Some event ->
  ev_data event = unhandled_event type ->
  fst (stripe_webhook req now db) = (200, wb_received) /\
  recorded (ev_id event) (snd (stripe_webhook req now db)) /\
  business_rows (snd (stripe_webhook req now db)) = business_rows db /\
  (existingEvent (ev_id event) db = None ->
   option_map (fun row => (we_event_type row, we_processed_at row))
     (existingEvent (ev_id event) (snd (stripe_webhook req now db))) =
   Some (type, Some now)).
Proof.
  intros Hv Hdata.
  split; [|split; [now apply stripe_webhook_records|]].
  - rewrite (stripe_webhook_verified _ _ _ _ Hv).
    destruct (existingEvent (ev_id event) db); [reflexivity|].
    unfold dispatch. now rewrite Hdata.
  - assert (Hd : dispatch event now (store_event event now db) =
                 (Ok tt, store_event event now db))
      by (unfold dispatch; now rewrite Hdata).
    split.
    + rewrite (stripe_webhook_verified _ _ _ _ Hv).
      destruct (existingEvent (ev_id event) db); [reflexivity|].
      now rewrite Hd.
    + intros Hex.
      destruct (stripe_webhook_processed req event now db _ Hv Hex Hd)
        as [-> Hrow].
      cbn [snd]. rewrite Hrow. simpl. unfold event_type. now rewrite Hdata.
Qed.

Lemma unhandled_event_type_is_acknowledged_witness :
  @verified_event reference_more (signed "body-3") = Some evt_customer_created
  /\
  fst (@stripe_webhook reference_more (signed "body-3") 5000 alice_db) =
    (200, wb_received) /\
  business_rows
    (snd (@stripe_webhook reference_more (signed "body-3") 5000 alice_db)) =
  business_rows alice_db.
Proof.
  split; [reflexivity|].
  destruct (@unhandled_event_type_is_acknowledged reference_more
              (signed "body-3") evt_customer_created "customer.created" 5000
              alice_db eq_refl eq_refl) as (H200 & _ & Hrows & _).
  split; assumption.
Defined.

(** ** Subscription events *)

Lemma update_where_no_match {A : Type} (p : A -> bool) (f : A -> A) rows :
  queryOne p rows = None -> update_where p f rows = rows.
Proof.
  unfold queryOne, update_where.
  induction rows as [|r rows IH]; simpl; [reflexivity|].
  destruct (p r); [discriminate|]. intros Hnone. now rewrite IH.
Qed.

Lemma with_subscriptions_same db :
  with_subscriptions (db_subscriptions db) db = db.
Proof. now destruct db. Qed.

(** X6. A subscription created, updated or deleted event for a provider
    subscription that has no local row is dropped: the handler returns
    normally and the store is exactly as before. *)
Theorem subscription_event_without_row_is_dropped subscription now db :
  subscription_row (ss_id subscription) db = None ->
  handleSubscriptionUpdated subscription now db = (Ok tt, db) /\
  handleSubscriptionDeleted subscription now db = (Ok tt, db).
Proof.
  unfold subscription_row. intros Hnone. split.
  - unfold handleSubscriptionUpdated. run_monad. now rewrite Hnone.
  - unfold handleSubscriptionDeleted, execute.
    rewrite update_where_no_match by exact Hnone.
    now rewrite with_subscriptions_same.
Qed.

Lemma subscription_event_without_row_is_dropped_witness :
  subscription_row "sub_1" alice_db = None /\
  handleSubscriptionUpdated sample_stripe_subscription 5000 alice_db =
    (Ok tt, alice_db) /\
  handleSubscriptionDeleted sample_stripe_subscription 5000 alice_db =
    (Ok tt, alice_db).
Proof.
  split; [reflexivity|].
  apply (subscription_event_without_row_is_dropped
           sample_stripe_subscription 5000 alice_db eq_refl).
Defined.

Lemma updated_on_existing subscription now db row :
  subscription_row (ss_id subscription) db = Some row ->
  handleSubscriptionUpdated subscription now db =
  (Ok tt,
   with_subscriptions
     (update_where (has_subscription_ref (ss_id subscription))
        (subscription_update_row subscription now) (db_subscriptions db))
     db) /\
  subscription_row (ss_id subscription)
    (snd (handleSubscriptionUpdated subscription now db)) =
  Some (subscription_update_row subscription now row).
Proof.
  unfold subscription_row. intros Hrow.
  assert (Hrun : handleSubscriptionUpdated subscription now db =
    (Ok tt,
     with_subscriptions
       (update_where (has_subscription_ref (ss_id subscription))
          (subscription_update_row subscription now) (db_subscriptions db))
       db)).
  { unfold handleSubscriptionUpdated. run_monad. now rewrite Hrow. }
  split; [exact Hrun|]. rewrite Hrun. cbn [snd db_subscriptions
                                            with_subscriptions].
  rewrite queryOne_update_where by reflexivity. rewrite Hrow.
  cbn [option_map].
  apply queryOne_some in Hrow. destruct Hrow as [_ Hmatch].
  now rewrite Hmatch.
Qed.

(** X7. Updates of one subscription are applied last-write-wins by arrival:
    after event [first] and then event [second] for the same subscription,
    the local row carries [second]'s status, period bounds, cancel flag and
    trial bounds, whatever [first] said (so an older event delivered last
    wins); canceled-at is [second]'s when it has one, otherwise [first]'s
    when it has one, otherwise the stored one. *)
Theorem subscription_updates_are_last_write_wins
  first second now now' db row :
  subscription_row (ss_id first) db = Some row ->
  ss_id second = ss_id first ->
  exists row',
    subscription_row (ss_id first)
      (snd (handleSubscriptionUpdated second now'
              (snd (handleSubscriptionUpdated first now db)))) = Some row' /\
    s_id row' = s_id row /\
    s_status row' = ss_status second /\
    s_current_period_start row' =
      Some (to_timestamp (ss_current_period_start second)) /\
    s_current_period_end row' =
      Some (to_timestamp (ss_current_period_end second)) /\
    s_cancel_at_period_end row' = ss_cancel_at_period_end second /\
    s_trial_start row' = to_timestamp_if_positive (ss_trial_start second) /\
    s_trial_end row' = to_timestamp_if_positive (ss_trial_end second) /\
    s_canceled_at row' =
      match ss_canceled_at second, ss_canceled_at first with
      | Some t, _ => Some (to_timestamp t)
      | None, Some t => Some (to_timestamp t)
      | None, None => s_canceled_at row
      end.
Proof.
  intros Hrow Hid.
  destruct (updated_on_existing first now db row Hrow) as [_ Hrow1].
  rewrite <- Hid in Hrow1.
  destruct (updated_on_existing second now' _ _ Hrow1) as [_ Hrow2].
  rewrite Hid in Hrow2.
  eexists. split; [exact Hrow2|]. simpl.
  repeat split.
Qed.

Lemma subscription_updates_are_last_write_wins_witness :
  subscription_row "sub_1" subscribed_db = Some active_subscription /\
  exists row',
    subscription_row "sub_1"
      (snd (handleSubscriptionUpdated
              (stripe_subscription_in active false None) 6000
              (snd (handleSubscriptionUpdated
                      (stripe_subscription_in canceled false
                                              (Some 1701000000))
                      5000 subscribed_db)))) = Some row' /\
    s_status row' = active /\
    s_canceled_at row' = Some 1701000000000.
Proof.
  split; [reflexivity|].
  destruct (subscription_updates_are_last_write_wins
              (stripe_subscription_in canceled false (Some 1701000000))
              (stripe_subscription_in active false None)
              5000 6000 subscribed_db active_subscription
              eq_refl eq_refl)
    as (row' & Hrow & _ & Hstatus & _ & _ & _ & _ & _ & Hcanceled).
  exists row'. repeat split; assumption.
Defined.

(** ** Checkout completion *)

Lemma queryOne_in_some {A : Type} (p : A -> bool) rows r :
  In r rows -> p r = true -> queryOne p rows <> None.
Proof.
  unfold queryOne. intros Hin Hp Hnone.
  pose proof (find_none p rows Hnone r Hin) as Hfalse. congruence.
Qed.

Lemma count_subscription_ref_none ref db :
  subscription_row ref db = None ->
  count_subscription_ref ref (db_subscriptions db) = 0%nat.
Proof.
  unfold subscription_row, count_subscription_ref. intros Hnone.
  now apply queryOne_none_count.
Qed.

(** X8. The completion of a subscription-mode checkout whose metadata names
    user [userId] and plan [planId], for a user without any subscription row
    and with a provider subscription reference not stored yet, appends
    exactly one row: that user, that plan, the session's customer and
    subscription reference, status [active], no cancellation. *)
Theorem checkout_completion_creates_the_subscription
  session userId planId customer now db :
  cs_mode session = mode_subscription ->
  cs_metadata_userId session = Some userId ->
  cs_metadata_planId session = Some planId ->
  cs_customer session = Some customer ->
  queryOne (fun s => Nat.eqb (s_user_id s) userId) (db_subscriptions db)
    = None ->
  (forall ref, cs_subscription session = Some ref ->
               subscription_row ref db = None) ->
  exists row,
    handleCheckoutSessionCompleted session now db =
      (Ok tt, with_subscriptions (db_subscriptions db ++ [row])
                                 (bump_uuid db)) /\
    s_user_id row = userId /\
    s_plan_id row = planId /\
    s_stripe_customer_id row = customer /\
    s_stripe_subscription_id row = cs_subscription session /\
    s_status row = active /\
    s_cancel_at_period_end row = false /\
    s_canceled_at row = None.
Proof.
  intros Hmode Huser Hplan Hcustomer Hnone Hfree.
  exists (checkout_new_row (db_next_uuid db) userId planId customer session
                           now).
  split; [|repeat split].
  unfold handleCheckoutSessionCompleted.
  rewrite Hmode, Huser, Hplan. run_monad. rewrite Hnone, Hcustomer.
  unfold write_subscriptions, violates_subscription_ref_unique.
  destruct (cs_subscription session) as [ref|] eqn:Href; [|reflexivity].
  unfold count_subscription_ref. rewrite count_app.
  fold (count_subscription_ref ref (db_subscriptions db)).
  rewrite (count_subscription_ref_none ref db (Hfree ref eq_refl)).
  simpl. rewrite Href. simpl. now rewrite String.eqb_refl.
Qed.

Lemma checkout_completion_creates_the_subscription_witness :
  exists row,
    handleCheckoutSessionCompleted (sample_session 3%nat "sub_9") 5000 alice_db =
      (Ok tt, with_subscriptions (db_subscriptions alice_db ++ [row])
                                 (bump_uuid alice_db)) /\
    s_user_id row = 1%nat /\
    s_plan_id row = 3%nat.
Proof.
  destruct (checkout_completion_creates_the_subscription
              (sample_session 3%nat "sub_9") 1%nat 3%nat "cus_alice" 5000 alice_db
              eq_refl eq_refl eq_refl eq_refl eq_refl)
    as (row & Hrun & Huser & Hplan & _).
  - intros ref _. reflexivity.
  - exists row. repeat split; assumption.
Defined.

(** X9. When the user already has a subscription row, a checkout completion
    that is applied inserts nothing: each row of that user is updated in
    place to status [active] with the session's subscription reference, and
    keeps its [plan_id], whatever plan the session's metadata names. *)
Theorem checkout_completion_updates_in_place
  session userId planId now db n row :
  cs_mode session = mode_subscription ->
  cs_metadata_userId session = Some userId ->
  cs_metadata_planId session = Some planId ->
  nth_error (db_subscriptions db) n = Some row ->
  s_user_id row = userId ->
  fst (handleCheckoutSessionCompleted session now db) = Ok tt ->
  List.length
    (db_subscriptions (snd (handleCheckoutSessionCompleted session now db)))
  = List.length (db_subscriptions db) /\
  nth_error
    (db_subscriptions (snd (handleCheckoutSessionCompleted session now db))) n
  = Some (checkout_update_row session now row) /\
  s_plan_id (checkout_update_row session now row) = s_plan_id row /\
  s_status (checkout_update_row session now row) = active /\
  s_stripe_subscription_id (checkout_update_row session now row)
  = cs_subscription session.
Proof.
  intros Hmode Huser Hplan Hn Hrow.
  assert (Hfound : queryOne (fun s => Nat.eqb (s_user_id s) userId)
                            (db_subscriptions db) <> None).
  { apply (queryOne_in_some _ _ row).
    - eapply nth_error_In; eassumption.
    - rewrite Hrow. apply Nat.eqb_refl. }
  unfold handleCheckoutSessionCompleted.
  rewrite Hmode, Huser, Hplan. run_monad.
  destruct (queryOne _ (db_subscriptions db)); [|contradiction].
  unfold write_subscriptions.
  destruct (violates_subscription_ref_unique _ _); simpl; [discriminate|].
  intros _. rewrite update_where_length. split; [reflexivity|].
  split; [|repeat split].
  rewrite nth_error_update_where, Hn. simpl.
  now rewrite Hrow, Nat.eqb_refl.
Qed.

Lemma checkout_completion_updates_in_place_witness :
  nth_error (db_subscriptions subscribed_db) 0 = Some active_subscription /\
  nth_error
    (db_subscriptions
       (snd (handleCheckoutSessionCompleted (sample_session 4%nat "sub_1") 5000
               subscribed_db))) 0
  = Some (checkout_update_row (sample_session 4%nat "sub_1") 5000
                              active_subscription) /\
  s_plan_id (checkout_update_row (sample_session 4%nat "sub_1") 5000
                                 active_subscription) = 3%nat.
Proof.
  split; [reflexivity|].
  destruct (checkout_completion_updates_in_place
              (sample_session 4%nat "sub_1") 1%nat 4%nat 5000 subscribed_db 0%nat
              active_subscription eq_refl eq_refl eq_refl eq_refl eq_refl
              eq_refl) as (_ & Hnth & Hplan & _).
  split; assumption.
Defined.

(** ** Invoice events out of order *)

Lemma on_new_invoice invoice now db :
  owner invoice db <> None ->
  invoice_row (si_id invoice) db = None ->
  exists user,
    owner invoice db = Some user /\
    handleInvoicePaymentSucceeded invoice now db =
    (Ok tt,
     with_invoices
       (db_invoices db ++
        [{| i_id := db_next_uuid db;
            i_user_id := u_id user;
            i_subscription_id := subscription_id_for invoice db;
            i_stripe_invoice_id := si_id invoice;
            i_stripe_charge_id := si_charge invoice;
            i_amount := si_amount_due invoice;
            i_currency := toUpperCase (si_currency invoice);
            i_status := si_status invoice;
            i_invoice_pdf := si_invoice_pdf invoice;
            i_hosted_invoice_url := si_hosted_invoice_url invoice;
            i_period_start := Some (to_timestamp (si_period_start invoice));
            i_period_end := Some (to_timestamp (si_period_end invoice));
            i_paid_at := Some now;
            i_created_at := now |}])
       (bump_uuid db)) /\
    handleInvoicePaymentFailed invoice now db =
    (Ok tt,
     with_invoices
       (db_invoices db ++
        [{| i_id := db_next_uuid db;
            i_user_id := u_id user;
            i_subscription_id := None;
            i_stripe_invoice_id := si_id invoice;
            i_stripe_charge_id := si_charge invoice;
            i_amount := si_amount_due invoice;
            i_currency := toUpperCase (si_currency invoice);
            i_status := open;
            i_invoice_pdf := None;
            i_hosted_invoice_url := None;
            i_period_start := Some (to_timestamp (si_period_start invoice));
            i_period_end := Some (to_timestamp (si_period_end invoice));
            i_paid_at := None;
            i_created_at := now |}])
       (bump_uuid db)) /\
    handleInvoiceFinalized invoice now db =
    (Ok tt,
     with_invoices
       (db_invoices db ++
        [{| i_id := db_next_uuid db;
            i_user_id := u_id user;
            i_subscription_id := None;
            i_stripe_invoice_id := si_id invoice;
            i_stripe_charge_id := si_charge invoice;
            i_amount := si_amount_due invoice;
            i_currency := toUpperCase (si_currency invoice);
            i_status := si_status invoice;
            i_invoice_pdf := si_invoice_pdf invoice;
            i_hosted_invoice_url := si_hosted_invoice_url invoice;
            i_period_start := Some (to_timestamp (si_period_start invoice));
            i_period_end := Some (to_timestamp (si_period_end invoice));
            i_paid_at := None;
            i_created_at := now |}])
       (bump_uuid db)).
Proof.
  unfold owner, handleInvoicePaymentSucceeded, handleInvoicePaymentFailed,
    handleInvoiceFinalized.
  intros Howner Hrow.
  destruct (truthy_string (si_customer invoice)) as [customer|];
    [|contradiction].
  destruct (user_by_customer customer db) as [user|] eqn:Huser;
    [|contradiction].
  exists user. split; [reflexivity|].
  run_monad. rewrite Huser.
  rewrite !upsert_invoice_new by exact Hrow. repeat split.
Qed.

Lemma invoice_row_appended ref rows row db :
  queryOne (has_invoice_ref ref) rows = None ->
  i_stripe_invoice_id row = ref ->
  invoice_row ref (with_invoices (rows ++ [row]) db) = Some row.
Proof.
  intros Hnone Href. unfold invoice_row. simpl. rewrite queryOne_app, Hnone.
  unfold queryOne, has_invoice_ref. simpl. now rewrite Href, String.eqb_refl.
Qed.

(** After payment_succeeded for an attributable invoice, the row for its
    reference exists, with the event's status and paid-at the processing
    time. *)
Lemma succeeded_leaves_paid_row invoice now db :
  owner invoice db <> None ->
  exists row,
    invoice_row (si_id invoice)
      (snd (handleInvoicePaymentSucceeded invoice now db)) = Some row /\
    i_status row = si_status invoice /\
    i_paid_at row = Some now /\
    db_users (snd (handleInvoicePaymentSucceeded invoice now db)) =
    db_users db.
Proof.
  intros Howner.
  destruct (invoice_row (si_id invoice) db) as [existing|] eqn:Hrow.
  - rewrite (succeeded_on_existing _ _ _ existing Howner Hrow).
    cbn [snd]. unfold invoice_row in *. cbn [db_invoices with_invoices].
    rewrite queryOne_update_where by reflexivity. rewrite Hrow.
    cbn [option_map].
    apply queryOne_some in Hrow. destruct Hrow as [_ ->].
    eexists. repeat split.
  - destruct (on_new_invoice invoice now db Howner Hrow)
      as (user & _ & -> & _).
    cbn [snd]. eexists. split.
    + apply invoice_row_appended; [exact Hrow | reflexivity].
    + repeat split.
Qed.

(** X10. Invoice events are applied in arrival order without looking at the
    stored state: when payment_succeeded for invoice X is followed by
    payment_failed for X (both attributable to a user), the row for X goes
    back to status [open] while keeping the paid-at stamped by the
    payment_succeeded event. *)
Theorem failed_after_succeeded_reopens_a_paid_invoice
  invoice later now now' db :
  si_id later = si_id invoice ->
  owner invoice db <> None ->
  owner later db <> None ->
  exists row,
    invoice_row (si_id invoice)
      (snd (handleInvoicePaymentFailed later now'
              (snd (handleInvoicePaymentSucceeded invoice now db))))
    = Some row /\
    i_status row = open /\
    i_paid_at row = Some now.
Proof.
  intros Hid Howner Hlater.
  destruct (succeeded_leaves_paid_row invoice now db Howner)
    as (row & Hrow & _ & Hpaid & Husers).
  set (db1 := snd (handleInvoicePaymentSucceeded invoice now db)) in *.
  assert (Hlater1 : owner later db1 <> None)
    by (rewrite (owner_same_users later db db1 Husers); exact Hlater).
  rewrite <- Hid in Hrow |- *.
  rewrite (failed_on_existing _ _ _ row Hlater1 Hrow).
  cbn [snd]. unfold invoice_row in *. cbn [db_invoices with_invoices].
  rewrite queryOne_update_where by reflexivity. rewrite Hrow.
  cbn [option_map].
  apply queryOne_some in Hrow. destruct Hrow as [_ ->].
  eexists. repeat split. exact Hpaid.
Qed.

Lemma failed_after_succeeded_reopens_a_paid_invoice_witness :
  exists row,
    invoice_row "in_1"
      (snd (handleInvoicePaymentFailed (sample_invoice open) 6000
              (snd (handleInvoicePaymentSucceeded (sample_invoice paid) 5000
                      alice_db))))
    = Some row /\
    i_status row = open /\
    i_paid_at row = Some 5000.
Proof.
  apply (failed_after_succeeded_reopens_a_paid_invoice
           (sample_invoice paid) (sample_invoice open) 5000 6000 alice_db
           eq_refl); discriminate.
Defined.

(** X11. The link from an invoice to its subscription is written only when
    the row is inserted by payment_succeeded.  For an invoice X not stored
    yet: payment_succeeded alone stores the local id of the subscription the
    event names; but if payment_failed or finalized for X arrives first, the
    row is inserted without a link, and the later payment_succeeded updates
    status and paid-at only, so the row stays unlinked. *)
Theorem invoice_link_depends_on_arrival_order invoice later now now' db :
  invoice_row (si_id invoice) db = None ->
  si_id later = si_id invoice ->
  owner invoice db <> None ->
  owner later db <> None ->
  (exists row,
     invoice_row (si_id invoice)
       (snd (handleInvoicePaymentSucceeded later now' db)) = Some row /\
     i_subscription_id row = subscription_id_for later db) /\
  (exists row,
     invoice_row (si_id invoice)
       (snd (handleInvoicePaymentSucceeded later now'
               (snd (handleInvoicePaymentFailed invoice now db)))) = Some row
     /\ i_subscription_id row = None
     /\ i_status row = si_status later) /\
  (exists row,
     invoice_row (si_id invoice)
       (snd (handleInvoicePaymentSucceeded later now'
               (snd (handleInvoiceFinalized invoice now db)))) = Some row
     /\ i_subscription_id row = None
     /\ i_status row = si_status later).
Proof.
  intros Hnew Hid Howner Hlater.
  destruct (on_new_invoice invoice now db Howner Hnew)
    as (user & _ & _ & Hfailed & Hfinalized).
  assert (Hnew' : invoice_row (si_id later) db = None) by now rewrite Hid.
  destruct (on_new_invoice later now' db Hlater Hnew')
    as (user' & _ & Hsucceeded & _).
  unfold invoice_row in Hnew.
  split; [|split].
  - rewrite Hsucceeded. cbn [snd]. eexists. split.
    + apply invoice_row_appended; [exact Hnew | exact Hid].
    + reflexivity.
  - rewrite Hfailed. cbn [snd].
    match goal with
    | |- context [with_invoices (_ ++ [?r]) ?d] =>
      set (first := r); set (db1 := with_invoices (db_invoices db ++ [r]) d)
    end.
    assert (Hrow : invoice_row (si_id later) db1 = Some first)
      by (rewrite Hid; apply invoice_row_appended;
          [exact Hnew | reflexivity]).
    assert (Hlater1 : owner later db1 <> None)
      by (rewrite (owner_same_users later db db1 eq_refl); exact Hlater).
    rewrite (succeeded_on_existing _ _ _ first Hlater1 Hrow).
    cbn [snd]. rewrite <- Hid. unfold invoice_row in *.
    cbn [db_invoices with_invoices] in *.
    rewrite queryOne_update_where by reflexivity. rewrite Hrow.
    cbn [option_map].
    apply queryOne_some in Hrow. destruct Hrow as [_ ->].
    eexists. repeat split.
  - rewrite Hfinalized. cbn [snd].
    match goal with
    | |- context [with_invoices (_ ++ [?r]) ?d] =>
      set (first := r); set (db1 := with_invoices (db_invoices db ++ [r]) d)
    end.
    assert (Hrow : invoice_row (si_id later) db1 = Some first)
      by (rewrite Hid; apply invoice_row_appended;
          [exact Hnew | reflexivity]).
    assert (Hlater1 : owner later db1 <> None)
      by (rewrite (owner_same_users later db db1 eq_refl); exact Hlater).
    rewrite (succeeded_on_existing _ _ _ first Hlater1 Hrow).
    cbn [snd]. rewrite <- Hid. unfold invoice_row in *.
    cbn [db_invoices with_invoices] in *.
    rewrite queryOne_update_where by reflexivity. rewrite Hrow.
    cbn [option_map].
    apply queryOne_some in Hrow. destruct Hrow as [_ ->].
    eexists. repeat split.
Qed.

Lemma invoice_link_depends_on_arrival_order_witness :
  (exists row,
     invoice_row "in_2"
       (snd (handleInvoicePaymentSucceeded (subscription_invoice paid) 6000
               subscribed_db)) = Some row /\
     i_subscription_id row = Some 7%nat) /\
  (exists row,
     invoice_row "in_2"
       (snd (handleInvoicePaymentSucceeded (subscription_invoice paid) 6000
               (snd (handleInvoicePaymentFailed (subscription_invoice open)
                       5000 subscribed_db)))) = Some row
     /\ i_subscription_id row = None
     /\ i_status row = paid).
Proof.
  destruct (invoice_link_depends_on_arrival_order
              (subscription_invoice open) (subscription_invoice paid)
              5000 6000 subscribed_db eq_refl eq_refl)
    as (Halone & Hfailed & _); try discriminate.
  split; assumption.
Defined.

(** * Further properties of the session lifecycle *)

(** ** What [authenticate] depends on *)

Lemma queryOne_same_identities id users users' :
  map identity users' = map identity users ->
  match queryOne (has_user_id id) users', queryOne (has_user_id id) users with
  | Some u', Some u => identity u' = identity u
  | None, None => True
  | _, _ => False
  end.
Proof.
  revert users'. unfold queryOne.
  induction users as [|u users IH]; intros [|u' users'] Hmap;
    try discriminate; simpl; [exact I|].
  pose proof (f_equal (hd (identity u)) Hmap) as Hid.
  pose proof (f_equal (@tl _) Hmap) as Hrest.
  cbn [map hd tl] in Hid, Hrest.
  assert (Hsame : has_user_id id u' = has_user_id id u).
  { unfold has_user_id. unfold identity in Hid. now inversion Hid. }
  rewrite Hsame. destruct (has_user_id id u); [exact Hid|].
  now apply IH.
Qed.

Lemma authenticate_same_identities `{Externals} authorization now db db' :
  map identity (db_users db') = map identity (db_users db) ->
  authenticate authorization now db' = authenticate authorization now db.
Proof.
  intros Hmap. unfold authenticate.
  destruct (truthy_string authorization) as [authHeader|]; [|reflexivity].
  destruct (negb (String.prefix "Bearer " authHeader)); [reflexivity|].
  destruct (jwt_verify _ _ now) as [decoded| |]; try reflexivity.
  pose proof (queryOne_same_identities (jwt_userId decoded) _ _ Hmap) as Hq.
  fold (has_user_id (jwt_userId decoded)).
  destruct (queryOne (has_user_id (jwt_userId decoded)) (db_users db'))
    as [u'|],
    (queryOne (has_user_id (jwt_userId decoded)) (db_users db)) as [u|];
    try contradiction; [|reflexivity].
  unfold identity in Hq. inversion Hq as [[Hid Hemail Hrole Hdeleted]].
  destruct (u_deleted_at u'), (u_deleted_at u); try discriminate;
    [reflexivity|]. now rewrite Hid, Hemail, Hrole.
Qed.

Lemma identities_update_where p f users :
  (forall u, identity (f u) = identity u) ->
  map identity (update_where p f users) = map identity users.
Proof. apply map_update_where. Qed.

(** ** Logout *)

Lemma logout_accepted `{Externals} req now db caller :
  authenticate (lo_authorization req) now db = inr caller ->
  logout req now db =
  ((200, api_message "Logged out successfully"),
   match truthy_string (lo_refreshToken req) with
   | Some refreshToken =>
     with_refresh_tokens
       (update_where (has_token_hash (sha256_hex refreshToken)) (revoke now)
                     (db_refresh_tokens db)) db
   | None => db
   end).
Proof.
  intros Hauth. unfold logout, catch_500. rewrite Hauth.
  destruct (truthy_string (lo_refreshToken req)); reflexivity.
Qed.

(** X12. A logout that passes [authenticate] and carries a refresh token
    revokes the stored row of that token, whoever the token belongs to (the
    handler does not compare the row's user with the caller), and from then
    on [POST /auth/refresh] refuses the token with 401
    INVALID_REFRESH_TOKEN. *)
Theorem logout_revokes_the_presented_token `{Externals}
  req now db caller T stored replay now' :
  authenticate (lo_authorization req) now db = inr caller ->
  truthy_string (lo_refreshToken req) = Some T ->
  storedToken (sha256_hex T) db = Some stored ->
  truthy_string (refresh_refreshToken replay) = Some T ->
  fst (logout req now db) = (200, api_message "Logged out successfully") /\
  storedToken (sha256_hex T) (snd (logout req now db)) =
    Some (revoke now stored) /\
  exists message,
    refresh replay now' (snd (logout req now db)) =
    ((401, api_error "INVALID_REFRESH_TOKEN" message),
     snd (logout req now db)).
Proof.
  intros Hauth Htoken Hstored Hreplay.
  rewrite (logout_accepted req now db caller Hauth), Htoken. cbn [fst snd].
  assert (Hrow : storedToken (sha256_hex T)
                   (with_refresh_tokens
                      (update_where (has_token_hash (sha256_hex T))
                                    (revoke now) (db_refresh_tokens db)) db)
                 = Some (revoke now stored)).
  { rewrite storedToken_update by reflexivity. rewrite Hstored.
    cbn [option_map].
    unfold storedToken in Hstored. apply queryOne_some in Hstored.
    destruct Hstored as [_ ->]. reflexivity. }
  split; [reflexivity|]. split; [exact Hrow|].
  eapply refresh_refused_when_revoked; [exact Hreplay | exact Hrow|].
  discriminate.
Qed.

Lemma logout_revokes_the_presented_token_witness :
  option_map rt_user_id
    (storedToken (@sha256_hex reference bob_token) alice_and_bob_db)
  = Some 2%nat /\
  @authenticate reference (Some alice_bearer) 5000000 alice_and_bob_db =
    inr alice_request_user /\
  exists message,
    @refresh reference (presents bob_token) 6000000
      (snd (@logout reference (alice_logs_out (Some bob_token)) 5000000
              alice_and_bob_db)) =
    ((401, api_error "INVALID_REFRESH_TOKEN" message),
     snd (@logout reference (alice_logs_out (Some bob_token)) 5000000
            alice_and_bob_db)).
Proof.
  split; [vm_compute; reflexivity|]. split; [vm_compute; reflexivity|].
  eapply (@logout_revokes_the_presented_token reference
            (alice_logs_out (Some bob_token)) 5000000 alice_and_bob_db
            alice_request_user bob_token);
    vm_compute; reflexivity.
Defined.

(** X13. Access tokens are not revocable by these routes: after any logout
    request and after any change-password request, [authenticate] answers
    every request exactly as it did before. *)
Theorem access_tokens_survive_logout_and_password_change `{Externals}
  lo cp now db authorization now' :
  authenticate authorization now' (snd (logout lo now db)) =
  authenticate authorization now' db /\
  authenticate authorization now' (snd (change_password cp now db)) =
  authenticate authorization now' db.
Proof.
  split; apply authenticate_same_identities.
  - unfold logout, catch_500.
    destruct (authenticate (lo_authorization lo) now db); [reflexivity|].
    destruct (truthy_string (lo_refreshToken lo)); reflexivity.
  - unfold change_password, catch_500.
    destruct (authenticate (cp_authorization cp) now db) as [|req_user];
      [reflexivity|].
    run_monad.
    destruct (active_user_by_id (ru_id req_user) db); [|reflexivity].
    destruct (bcrypt_compare _ _); simpl; [|reflexivity].
    now apply identities_update_where.
Qed.

(** ** Account deletion *)

Lemma delete_account_tokens `{Externals} req now db req_user :
  authenticate (del_authorization req) now db = inr req_user ->
  fst (fst (delete_account req now db)) = 200 ->
  db_refresh_tokens (snd (delete_account req now db)) =
  update_where (fun r => Nat.eqb (rt_user_id r) (ru_id req_user))
               (revoke now) (db_refresh_tokens db).
Proof.
  intros Hauth. unfold delete_account, catch_500. rewrite Hauth.
  destruct (truthy_string (del_password req)); [|discriminate].
  run_monad.
  destruct (active_user_by_id (ru_id req_user) db); [|discriminate].
  destruct (bcrypt_compare _ _); simpl; [|discriminate].
  reflexivity.
Qed.

(** X14. After a successful [DELETE /profile], every refresh token whose
    stored row belongs to the deleted user is revoked at the deletion time
    and is refused by [POST /auth/refresh] with 401 INVALID_REFRESH_TOKEN. *)
Theorem account_deletion_revokes_every_token `{Externals}
  req now db req_user T stored replay now' :
  authenticate (del_authorization req) now db = inr req_user ->
  fst (fst (delete_account req now db)) = 200 ->
  storedToken (sha256_hex T) db = Some stored ->
  rt_user_id stored = ru_id req_user ->
  truthy_string (refresh_refreshToken replay) = Some T ->
  storedToken (sha256_hex T) (snd (delete_account req now db)) =
    Some (revoke now stored) /\
  exists message,
    refresh replay now' (snd (delete_account req now db)) =
    ((401, api_error "INVALID_REFRESH_TOKEN" message),
     snd (delete_account req now db)).
Proof.
  intros Hauth Hok Hstored Howner Hreplay.
  pose proof (delete_account_tokens req now db req_user Hauth Hok) as Htokens.
  assert (Hrow : storedToken (sha256_hex T) (snd (delete_account req now db))
                 = Some (revoke now stored)).
  { unfold storedToken. rewrite Htokens.
    rewrite queryOne_update_where by reflexivity.
    fold (storedToken (sha256_hex T) db). rewrite Hstored.
    cbn [option_map]. now rewrite Howner, Nat.eqb_refl. }
  split; [exact Hrow|].
  eapply refresh_refused_when_revoked; [exact Hreplay | exact Hrow|].
  discriminate.
Qed.

Lemma account_deletion_revokes_every_token_witness :
  fst (fst (@delete_account reference alice_deletes_account 5000000
              two_devices_db)) = 200 /\
  (exists message,
     @refresh reference (presents token_1) 6000000
       (snd (@delete_account reference alice_deletes_account 5000000
               two_devices_db)) =
     ((401, api_error "INVALID_REFRESH_TOKEN" message),
      snd (@delete_account reference alice_deletes_account 5000000
             two_devices_db))).
Proof.
  split; [vm_compute; reflexivity|].
  eapply (@account_deletion_revokes_every_token reference
            alice_deletes_account 5000000 two_devices_db
            alice_request_user token_1);
    vm_compute; reflexivity.
Defined.

(** ** Login: counting and locking *)

(** X15. A wrong password for an account that is not locked is answered
    401 INVALID_CREDENTIALS and raises the failure counter by one (a NULL
    counter counts as 0); the account is locked for 30 minutes as soon as
    the new count reaches 5, and stays unlocked below.  The counter is not
    reset when a lock expires, so after an expired lock a single wrong
    password locks the account again. *)
Theorem wrong_password_counts_and_locks_from_the_fifth `{Externals}
  req now db user :
  active_user_by_email (toLowerCase (login_email req)) db = Some user ->
  is_locked (Some user) now = false ->
  bcrypt_compare (login_password req) (u_password_hash user) = false ->
  fst (login req now db) =
    (401, api_error "INVALID_CREDENTIALS" "Invalid email or password") /\
  option_map u_failed_login_attempts
    (active_user_by_email (toLowerCase (login_email req))
       (snd (login req now db)))
  = Some (Some (or_zero (u_failed_login_attempts user) + 1)) /\
  option_map u_locked_until
    (active_user_by_email (toLowerCase (login_email req))
       (snd (login req now db)))
  = Some (if 4 <=? or_zero (u_failed_login_attempts user)
          then Some (now + 30 * 60 * 1000) else None).
Proof.
  intros Huser Hfree Hwrong.
  rewrite (login_wrong_password req now db user Huser Hfree Hwrong).
  cbn [fst snd]. split; [reflexivity|].
  rewrite active_user_by_email_update by reflexivity.
  rewrite Huser. cbn [option_map]. rewrite (has_user_id_self user).
  split; [reflexivity|]. simpl. unfold lockout_threshold, lockout_ms.
  destruct (Z.leb_spec 5 (or_zero (u_failed_login_attempts user) + 1)),
           (Z.leb_spec 4 (or_zero (u_failed_login_attempts user)));
    try lia; reflexivity.
Qed.

Lemma wrong_password_counts_and_locks_from_the_fifth_witness :
  option_map u_locked_until
    (active_user_by_email "alice@example.com"
       (snd (@login reference (alice_login "guess") 1000000 alice_db)))
  = Some None /\
  option_map u_locked_until
    (active_user_by_email "alice@example.com"
       (snd (@login reference (alice_login "guess") 1000000
               four_failures_db)))
  = Some (Some 2800000).
Proof.
  split.
  - apply (@wrong_password_counts_and_locks_from_the_fifth reference
             (alice_login "guess") 1000000 alice_db alice);
      vm_compute; reflexivity.
  - apply (@wrong_password_counts_and_locks_from_the_fifth reference
             (alice_login "guess") 1000000 four_failures_db
             alice_after_four_failures);
      vm_compute; reflexivity.
Defined.

(** X16. While [locked_until] lies in the future, every login attempt for
    the account, with a right or a wrong password, is answered 423
    ACCOUNT_LOCKED and writes nothing: the counter is not raised and the
    lock is not extended. *)
Theorem locked_account_rejects_every_attempt `{Externals}
  req now db user until :
  active_user_by_email (toLowerCase (login_email req)) db = Some user ->
  u_locked_until user = Some until ->
  now < until ->
  login req now db =
  ((423, api_error "ACCOUNT_LOCKED"
           "Account is temporarily locked. Please try again later."), db).
Proof.
  intros Huser Huntil Hnow. apply (login_locked req now db user Huser).
  simpl. rewrite Huntil. now apply Z.ltb_lt.
Qed.

Lemma locked_account_rejects_every_attempt_witness :
  @login reference (alice_login "guess") 2000000
    (snd (@login reference (alice_login "guess") 1000000 four_failures_db)) =
  ((423, api_error "ACCOUNT_LOCKED"
           "Account is temporarily locked. Please try again later."),
   snd (@login reference (alice_login "guess") 1000000 four_failures_db)).
Proof.
  eapply (@locked_account_rejects_every_attempt reference
            (alice_login "guess") 2000000);
    [vm_compute; reflexivity | vm_compute; reflexivity | lia].
Defined.

(** X17. A login for an email that no active account has writes nothing,
    and its response is the one a wrong password for an existing, unlocked
    account gets. *)
Theorem unknown_email_answers_like_wrong_password `{Externals}
  unknown wrong now now' db db' user :
  active_user_by_email (toLowerCase (login_email unknown)) db = None ->
  active_user_by_email (toLowerCase (login_email wrong)) db' = Some user ->
  is_locked (Some user) now' = false ->
  bcrypt_compare (login_password wrong) (u_password_hash user) = false ->
  snd (login unknown now db) = db /\
  fst (login unknown now db) = fst (login wrong now' db').
Proof.
  intros Hnone Huser Hfree Hwrong.
  rewrite (login_unknown_email unknown now db Hnone).
  rewrite (login_wrong_password wrong now' db' user Huser Hfree Hwrong).
  split; reflexivity.
Qed.

Lemma unknown_email_answers_like_wrong_password_witness :
  snd (@login reference bob_login 1000000 alice_db) = alice_db /\
  fst (@login reference bob_login 1000000 alice_db) =
  fst (@login reference (alice_login "guess") 1000000 alice_db).
Proof.
  apply (@unknown_email_answers_like_wrong_password reference
           bob_login (alice_login "guess") 1000000 1000000 alice_db alice_db
           alice); vm_compute; reflexivity.
Defined.

(** ** Identity and roles *)

(** X18. The user [authenticate] attaches comes from the store, not from the
    token: for a bearer token that passes [jwt.verify], the request is
    accepted exactly with the id, email and role of the (not deleted) row the
    token's [userId] resolves to, whatever email or role the payload
    carries; hence [requireAdmin] behind it lets the request through if and
    only if the stored role is admin. *)
Theorem identity_and_admin_gate_follow_the_store `{Externals}
  authorization now db decoded row :
  bearer_payload authorization now = Some decoded ->
  queryOne (has_user_id (jwt_userId decoded)) (db_users db) = Some row ->
  u_deleted_at row = None ->
  authenticate authorization now db = inr (request_user row) /\
  requireAdmin (Some (request_user row)) =
    match u_role row with
    | RoleAdmin => None
    | RoleUser => Some (403, api_error "FORBIDDEN" "Admin access required")
    end.
Proof.
  intros Hbearer Hrow Hactive.
  rewrite (authenticate_verified _ _ _ _ Hbearer), Hrow, Hactive.
  split; [reflexivity|]. unfold requireAdmin, request_user. simpl.
  now destruct (u_role row).
Qed.

Lemma identity_and_admin_gate_follow_the_store_witness :
  @authenticate reference (Some alice_bearer) 5000000 alice_and_bob_db =
    inr (request_user alice) /\
  requireAdmin (Some (request_user alice)) =
    Some (403, api_error "FORBIDDEN" "Admin access required").
Proof.
  destruct (@identity_and_admin_gate_follow_the_store reference
              (Some alice_bearer) 5000000 alice_and_bob_db alice_payload
              alice)
    as [Hauth Hgate]; try (vm_compute; reflexivity).
  split; assumption.
Defined.
